(** * CharLCD: a 4-bit HD44780 character LCD driver (LCD.py)

    The driver is embedded as functions that return the sequence of GPIO
    and sleep calls they make, together with their outcome (a value or a
    raised exception).  Object attributes ([cols], [rows],
    [displaycontrol]) are passed explicitly. *)

From Stdlib Require Import Ascii String ZArith List Lia Bool Floats.PrimFloat.
Import ListNotations.
Set Warnings "-inexact-float".
Open Scope Z_scope.

(** ** The fragment of Python the driver relies on *)

Module Py.

Inductive exn := IndexError | ValueError.

Inductive result (A : Type) :=
| Ok (a : A)
| Raise (e : exn).
Arguments Ok {A} a.
Arguments Raise {A} e.

(** [len(t)] *)
Definition len {A} (t : list A) : Z := Z.of_nat (length t).

(** [t[i]] on a tuple, list, bytearray or str: a negative index counts
    from the end, anything outside [-len, len) raises IndexError. *)
Definition getitem {A} (t : list A) (i : Z) : result A :=
  let j := if i <? 0 then i + len t else i in
  if (j <? 0) || (len t <=? j) then Raise IndexError
  else match nth_error t (Z.to_nat j) with
       | Some a => Ok a
       | None => Raise IndexError
       end.

(** [range(n)] *)
Definition range (n : nat) : list Z := map Z.of_nat (seq 0 n).

(** A str is its sequence of code points; [ord(s[i])] is the i-th one. *)
Definition str := list Z.
Definition space : Z := 32.

(** The three alignment options of the format mini-language that the
    driver uses: '<', '^' and '>'. *)
Inductive alignment := AlignLeft | AlignCenter | AlignRight.

(** ['{0:<{1}}'.format(s, width)] and its '^' and '>' variants, for a
    str [s] and an int [width].  The fill character is a space; the
    field is never shorter than [s]; centering puts [pad / 2] spaces
    on the left and the rest on the right.  A negative [width] makes
    the specification ill-formed (a sign in a string format
    specifier), which CPython rejects with ValueError. *)
Definition format_align (a : alignment) (s : str) (width : Z) : result str :=
  if width <? 0 then Raise ValueError
  else
    let pad := Z.max 0 (width - len s) in
    let left := match a with
                | AlignLeft => 0
                | AlignCenter => pad / 2
                | AlignRight => pad
                end in
    let right := pad - left in
    Ok (repeat space (Z.to_nat left) ++ s ++ repeat space (Z.to_nat right)).

End Py.
Import Py.

(** ** GPIO lines and the calls made on them *)

Inductive Pin := RS | EN | D4 | D5 | D6 | D7.

Inductive event :=
| PinOut (p : Pin) (gpio : Z)   (* p = machine.Pin(gpio, machine.Pin.OUT) *)
| PinValue (p : Pin) (v : Z)    (* p.value(v) *)
| Sleep (seconds : float).      (* sleep(seconds) *)

(** A computation makes calls, in order, and then returns or raises. *)
Definition IO (A : Type) : Type := list event * result A.

Definition ret {A} (a : A) : IO A := ([], Ok a).

Definition bind {A B} (m : IO A) (k : A -> IO B) : IO B :=
  match m with
  | (t, Ok a) => let (t', r) := k a in (t ++ t', r)
  | (t, Raise e) => (t, Raise e)
  end.

Definition trace {A} (m : IO A) : list event := fst m.
Definition outcome {A} (m : IO A) : result A := snd m.

Declare Scope io_scope.
Delimit Scope io_scope with io.
Notation "x <- m ;; k" := (bind m (fun x => k))
  (at level 61, m at next level, right associativity) : io_scope.
Notation "m ;; k" := (bind m (fun _ => k))
  (at level 61, right associativity) : io_scope.
Open Scope io_scope.

Definition call (e : event) : IO unit := ([e], Ok tt).
Definition lift {A} (r : result A) : IO A := ([], r).
Definition value (p : Pin) (v : Z) : IO unit := call (PinValue p v).
Definition sleep (seconds : float) : IO unit := call (Sleep seconds).
Definition when (c : bool) (m : IO unit) : IO unit := if c then m else ret tt.

(** [for x in xs: body(x)] *)
Fixpoint for_each {A} (xs : list A) (body : A -> IO unit) : IO unit :=
  match xs with
  | [] => ret tt
  | x :: xs' => body x ;; for_each xs' body
  end.

(** ** Class constants *)

Definition LCD_CHR : Z := 1.
Definition LCD_CMD : Z := 0.

Definition LCD_LINES : list Z := [0x80; 0xC0; 0x94; 0xD4].
Definition LCD_ROW_OFFSETS : list Z := [0x00; 0x40; 0x14; 0x54].

Definition LCD_CLEAR : Z := 0x01.
Definition LCD_CURSORSHIFT : Z := 0x10.
Definition LCD_DISPLAYCONTROL : Z := 0x08.
Definition LCD_HOME : Z := 0x02.
Definition LCD_SETDDRAMADDR : Z := 0x80.
Definition LCD_SETCGRAMADDR : Z := 0x40.

Definition LCD_DISPLAYON : Z := 0x04.
Definition LCD_DISPLAYOFF : Z := 0x00.
Definition LCD_CURSORON : Z := 0x02.
Definition LCD_CURSOROFF : Z := 0x00.
Definition LCD_BLINKON : Z := 0x01.
Definition LCD_BLINKOFF : Z := 0x00.

Definition LCD_DISPLAYMOVE : Z := 0x08.
Definition LCD_MOVELEFT : Z := 0x00.
Definition LCD_MOVERIGHT : Z := 0x04.

Definition E_PULSE : float := 0.0005%float.
Definition E_DELAY : float := 0.0005%float.
Definition HOMEDELAY : float := 0.05%float.

(** ** The object and its methods *)

Record CharLCD := {
  cols : Z;
  rows : Z;
  displaycontrol : Z
}.

Definition lcd_byte (bits mode : Z) : IO unit :=
  value RS mode ;;
  sleep E_DELAY ;;
  (* High bits *)
  value D4 0 ;;
  value D5 0 ;;
  value D6 0 ;;
  value D7 0 ;;
  when (Z.land bits 0x10 =? 0x10) (value D4 1) ;;
  when (Z.land bits 0x20 =? 0x20) (value D5 1) ;;
  when (Z.land bits 0x40 =? 0x40) (value D6 1) ;;
  when (Z.land bits 0x80 =? 0x80) (value D7 1) ;;
  (* Toggle Enable pin. *)
  sleep E_DELAY ;;
  value EN 1 ;;
  sleep E_PULSE ;;
  value EN 0 ;;
  sleep E_DELAY ;;
  (* Low bits *)
  value D4 0 ;;
  value D5 0 ;;
  value D6 0 ;;
  value D7 0 ;;
  when (Z.land bits 0x01 =? 0x01) (value D4 1) ;;
  when (Z.land bits 0x02 =? 0x02) (value D5 1) ;;
  when (Z.land bits 0x04 =? 0x04) (value D6 1) ;;
  when (Z.land bits 0x08 =? 0x08) (value D7 1) ;;
  (* Toggle Enable pin. *)
  sleep E_DELAY ;;
  value EN 1 ;;
  sleep E_PULSE ;;
  value EN 0 ;;
  sleep E_DELAY.

Definition clear : IO unit :=
  lcd_byte LCD_CLEAR LCD_CMD ;;
  sleep HOMEDELAY.

Definition home : IO unit :=
  lcd_byte LCD_HOME LCD_CMD ;;
  sleep HOMEDELAY.

(** [__init__]: binds the six pins, stores the geometry, runs the
    initialisation sequence and sets [displaycontrol]; returns the
    constructed object. *)
Definition init (rs en d4 d5 d6 d7 cols rows : Z) : IO CharLCD :=
  call (PinOut RS rs) ;;
  call (PinOut EN en) ;;
  call (PinOut D4 d4) ;;
  call (PinOut D5 d5) ;;
  call (PinOut D6 d6) ;;
  call (PinOut D7 d7) ;;
  lcd_byte 0x33 LCD_CMD ;;
  lcd_byte 0x32 LCD_CMD ;;
  lcd_byte 0x28 LCD_CMD ;;
  lcd_byte 0x0C LCD_CMD ;;
  lcd_byte 0x06 LCD_CMD ;;
  clear ;;
  ret {| cols := cols; rows := rows;
         displaycontrol :=
           Z.lor (Z.lor LCD_DISPLAYON LCD_CURSOROFF) LCD_BLINKOFF |}.

Definition create_char (location : Z) (pattern : list Z) : IO unit :=
  (* only position 0..7 are allowed *)
  let location := Z.land location 0x7 in
  lcd_byte (Z.lor LCD_SETCGRAMADDR (Z.shiftl location 3)) LCD_CMD ;;
  for_each (range 8) (fun i =>
    b <- lift (getitem pattern i) ;;
    lcd_byte b LCD_CHR).

(** The three display-control toggles return the object with its
    [displaycontrol] attribute updated. *)
Definition with_displaycontrol (self : CharLCD) (dc : Z) : CharLCD :=
  {| cols := cols self; rows := rows self; displaycontrol := dc |}.

Definition enable (self : CharLCD) (enable : bool) : IO CharLCD :=
  let self :=
    if enable
    then with_displaycontrol self (Z.lor (displaycontrol self) LCD_DISPLAYON)
    else with_displaycontrol self
           (Z.land (displaycontrol self) (Z.lnot LCD_DISPLAYON)) in
  lcd_byte (Z.lor LCD_DISPLAYCONTROL (displaycontrol self)) LCD_CMD ;;
  ret self.

Definition show_blink (self : CharLCD) (show : bool) : IO CharLCD :=
  let self :=
    if show
    then with_displaycontrol self (Z.lor (displaycontrol self) LCD_BLINKON)
    else with_displaycontrol self
           (Z.land (displaycontrol self) (Z.lnot LCD_BLINKON)) in
  lcd_byte (Z.lor LCD_DISPLAYCONTROL (displaycontrol self)) LCD_CMD ;;
  ret self.

Definition show_underline (self : CharLCD) (show : bool) : IO CharLCD :=
  let self :=
    if show
    then with_displaycontrol self (Z.lor (displaycontrol self) LCD_CURSORON)
    else with_displaycontrol self
           (Z.land (displaycontrol self) (Z.lnot LCD_CURSORON)) in
  lcd_byte (Z.lor LCD_DISPLAYCONTROL (displaycontrol self)) LCD_CMD ;;
  ret self.

Definition message (self : CharLCD) (message : str) (align : Z) : IO unit :=
  message <-
    (if align =? 1 then lift (format_align AlignLeft message (cols self))
     else if align =? 2 then lift (format_align AlignCenter message (cols self))
     else if align =? 3 then lift (format_align AlignRight message (cols self))
     else ret message) ;;
  for_each (range (length message)) (fun i =>
    c <- lift (getitem message i) ;;
    lcd_byte c LCD_CHR).

Definition move_left : IO unit :=
  lcd_byte (Z.lor (Z.lor LCD_CURSORSHIFT LCD_DISPLAYMOVE) LCD_MOVELEFT) LCD_CMD.

Definition move_right : IO unit :=
  lcd_byte (Z.lor (Z.lor LCD_CURSORSHIFT LCD_DISPLAYMOVE) LCD_MOVERIGHT) LCD_CMD.

Definition set_cursor (self : CharLCD) (col row : Z) : IO unit :=
  (* Clamp row to the last row of the display. *)
  let row := if rows self <? row then rows self - 1 else row in
  (* Set location. *)
  offset <- lift (getitem LCD_ROW_OFFSETS row) ;;
  lcd_byte (Z.lor LCD_SETDDRAMADDR (col + offset)) LCD_CMD.

Definition set_line (num : Z) : IO unit :=
  line <- lift (getitem LCD_LINES num) ;;
  lcd_byte line LCD_CMD.

(** ** What the controller sees

    The HD44780 samples register-select and the four data lines on the
    falling edge of enable.  [latches] replays a sequence of calls on the
    six lines and collects those samples; [transfers] pairs them up into
    bytes, high nibble first, as the controller does in 4-bit mode. *)

Record lines := {
  l_rs : bool; l_en : bool;
  l_d4 : bool; l_d5 : bool; l_d6 : bool; l_d7 : bool
}.

(** [p.value(v)] drives the line high for any truthy [v]. *)
Definition level (v : Z) : bool := negb (v =? 0).

Definition drive (p : Pin) (v : Z) (s : lines) : lines :=
  let b := level v in
  match p with
  | RS => {| l_rs := b; l_en := l_en s;
             l_d4 := l_d4 s; l_d5 := l_d5 s; l_d6 := l_d6 s; l_d7 := l_d7 s |}
  | EN => {| l_rs := l_rs s; l_en := b;
             l_d4 := l_d4 s; l_d5 := l_d5 s; l_d6 := l_d6 s; l_d7 := l_d7 s |}
  | D4 => {| l_rs := l_rs s; l_en := l_en s;
             l_d4 := b; l_d5 := l_d5 s; l_d6 := l_d6 s; l_d7 := l_d7 s |}
  | D5 => {| l_rs := l_rs s; l_en := l_en s;
             l_d4 := l_d4 s; l_d5 := b; l_d6 := l_d6 s; l_d7 := l_d7 s |}
  | D6 => {| l_rs := l_rs s; l_en := l_en s;
             l_d4 := l_d4 s; l_d5 := l_d5 s; l_d6 := b; l_d7 := l_d7 s |}
  | D7 => {| l_rs := l_rs s; l_en := l_en s;
             l_d4 := l_d4 s; l_d5 := l_d5 s; l_d6 := l_d6 s; l_d7 := b |}
  end.

(** One sample: the register-select level and the levels of the data
    lines d4, d5, d6, d7 in that order. *)
Record latch := {
  latch_rs : bool;
  latch_d4 : bool; latch_d5 : bool; latch_d6 : bool; latch_d7 : bool
}.

Definition sample (s : lines) : latch :=
  {| latch_rs := l_rs s;
     latch_d4 := l_d4 s; latch_d5 := l_d5 s;
     latch_d6 := l_d6 s; latch_d7 := l_d7 s |}.

(** The nibble on the data lines, d4 least significant. *)
Definition nibble (l : latch) : Z :=
  Z.b2z (latch_d4 l) + 2 * Z.b2z (latch_d5 l)
  + 4 * Z.b2z (latch_d6 l) + 8 * Z.b2z (latch_d7 l).

Definition step (s : lines) (e : event) : lines :=
  match e with
  | PinValue p v => drive p v s
  | _ => s
  end.

Definition falling_edge (s : lines) (e : event) : bool :=
  match e with
  | PinValue EN v => negb (level v) && l_en s
  | _ => false
  end.

Fixpoint latches (s : lines) (t : list event) : list latch :=
  match t with
  | [] => []
  | e :: t' =>
      if falling_edge s e
      then sample s :: latches (step s e) t'
      else latches (step s e) t'
  end.

Definition run (s : lines) (t : list event) : lines := fold_left step t s.

Fixpoint transfers (ls : list latch) : list (bool * Z) :=
  match ls with
  | hi :: lo :: ls' => (latch_rs hi, 16 * nibble hi + nibble lo) :: transfers ls'
  | _ => []
  end.

(** The bytes the controller receives from a sequence of calls, each
    with the register it goes to ([false] command, [true] character). *)
Definition received (s : lines) (t : list event) : list (bool * Z) :=
  transfers (latches s t).

(** The calls made by a series of [lcd_byte(bits, mode)] calls. *)
Definition sends (calls : list (Z * Z)) : list event :=
  flat_map (fun c => trace (lcd_byte (fst c) (snd c))) calls.

(** The sleeps in a sequence of calls, and the calls on one pin. *)
Definition sleeps (t : list event) : list float :=
  flat_map (fun e => match e with Sleep d => [d] | _ => [] end) t.

Definition pin_eqb (p q : Pin) : bool :=
  match p, q with
  | RS, RS | EN, EN | D4, D4 | D5, D5 | D6, D6 | D7, D7 => true
  | _, _ => false
  end.

Definition values_on (p : Pin) (t : list event) : list Z :=
  flat_map (fun e => match e with
                     | PinValue q v => if pin_eqb p q then [v] else []
                     | _ => []
                     end) t.

Definition idle : lines :=
  {| l_rs := false; l_en := false;
     l_d4 := false; l_d5 := false; l_d6 := false; l_d7 := false |}.

(** The calls [lcd_byte] makes to raise one data line. *)
Definition raised (p : Pin) (c : bool) : list event :=
  if c then [PinValue p 1] else [].

(** The calls that put nibble [n] on the data lines: all four lines are
    lowered, then d(4+i) is raised for every set bit i of [n]. *)
Definition drive_nibble (n : Z) : list event :=
  [PinValue D4 0; PinValue D5 0; PinValue D6 0; PinValue D7 0]
  ++ raised D4 (Z.testbit n 0) ++ raised D5 (Z.testbit n 1)
  ++ raised D6 (Z.testbit n 2) ++ raised D7 (Z.testbit n 3).

(** One enable-latch sequence: setup delay, enable high for the pulse
    width, enable low, setup delay. *)
Definition latch_pulse : list event :=
  [Sleep E_DELAY; PinValue EN 1; Sleep E_PULSE; PinValue EN 0; Sleep E_DELAY].

(** A nibble as sampled from the data lines: bit i on line d(4+i). *)
Definition on_lines (rs : bool) (n : Z) : latch :=
  {| latch_rs := rs;
     latch_d4 := Z.testbit n 0; latch_d5 := Z.testbit n 1;
     latch_d6 := Z.testbit n 2; latch_d7 := Z.testbit n 3 |}.

(** Character-mode and command-mode arguments of [lcd_byte]. *)
Definition chr (c : Z) : Z * Z := (c, LCD_CHR).
Definition cmd (c : Z) : Z * Z := (c, LCD_CMD).

(** The code points of a string literal. *)
Definition str_of (s : string) : str :=
  map (fun c => Z.of_N (N_of_ascii c)) (list_ascii_of_string s).

(** The wiring and geometry of demo.py, and two further displays. *)
Definition demo_lcd : IO CharLCD := init 1 3 15 13 12 14 16 2.

Definition lcd16x2 : CharLCD := {| cols := 16; rows := 2; displaycontrol := 0x04 |}.
Definition lcd20x4 : CharLCD := {| cols := 20; rows := 4; displaycontrol := 0x04 |}.

(** [lcd = CharLCD(...); lcd.show_blink(True); lcd.show_underline(True)] *)
Definition blink_then_underline : IO CharLCD :=
  lcd <- demo_lcd ;;
  lcd <- show_blink lcd true ;;
  show_underline lcd true.

(** ** Sequences of display-control calls *)

(** One call to [enable], [show_underline] or [show_blink]. *)
Inductive toggle :=
| Enable (on : bool)
| Underline (on : bool)
| Blink (on : bool).

Definition toggle_call (self : CharLCD) (t : toggle) : IO CharLCD :=
  match t with
  | Enable on => enable self on
  | Underline on => show_underline self on
  | Blink on => show_blink self on
  end.

(** The calls of [ts] made one after the other on the same object. *)
Fixpoint toggle_calls (self : CharLCD) (ts : list toggle) : IO CharLCD :=
  match ts with
  | [] => ret self
  | t :: ts' => self' <- toggle_call self t ;; toggle_calls self' ts'
  end.

(** The flag bit a call is about, and the value it asks for. *)
Definition toggle_bit (t : toggle) : Z :=
  match t with Enable _ => 2 | Underline _ => 1 | Blink _ => 0 end.

Definition toggle_arg (t : toggle) : bool :=
  match t with Enable on | Underline on | Blink on => on end.

(** The value last asked for bit [bit] in [ts], [old] if none was. *)
Fixpoint last_asked (bit : Z) (ts : list toggle) (old : bool) : bool :=
  match ts with
  | [] => old
  | t :: ts' =>
      last_asked bit ts' (if toggle_bit t =? bit then toggle_arg t else old)
  end.

(** ** demo.py *)

Module Demo.

(** [run()]; the value returned here is the local [lcd] as it stands
    when [run] ends. *)
Definition run : IO CharLCD :=
  (* Initialize the LCD *)
  lcd <- init 1 3 15 13 12 14 16 2 ;;
  (* Print a 2 line centered message *)
  message lcd (str_of "Hello") 2 ;;
  set_line 1 ;;
  message lcd (str_of "World!") 2 ;;
  sleep 3.0 ;;
  (* Show the underline cursor. *)
  clear ;;
  lcd <- show_underline lcd true ;;
  message lcd (str_of "Underline") 0 ;;
  set_line 1 ;;
  message lcd (str_of "Cursor: ") 0 ;;
  sleep 3.0 ;;
  (* Also show the blinking cursor. *)
  clear ;;
  lcd <- show_blink lcd true ;;
  message lcd (str_of "Blinking") 0 ;;
  set_line 1 ;;
  message lcd (str_of "Cursor: ") 0 ;;
  sleep 3.0 ;;
  (* Disable blink and underline cursor. *)
  lcd <- show_underline lcd false ;;
  lcd <- show_blink lcd false ;;
  (* Scroll message right & left. *)
  clear ;;
  message lcd (str_of "Scrolling Demo") 0 ;;
  sleep 1.0 ;;
  for_each (range 16) (fun _ => sleep 0.25 ;; move_right) ;;
  for_each (range 16) (fun _ => sleep 0.25 ;; move_left) ;;
  sleep 2.0 ;;
  (* The End *)
  create_char 0 [7; 12; 24; 16; 22; 22; 22; 16] ;;
  create_char 1 [28; 6; 3; 1; 13; 13; 13; 1] ;;
  create_char 2 [16; 20; 20; 23; 19; 24; 12; 7] ;;
  create_char 3 [1; 1; 5; 29; 25; 3; 6; 28] ;;
  clear ;;
  message lcd (str_of "The") 3 ;;
  home ;;
  message lcd [0x00] 0 ;;
  message lcd [0x01] 0 ;;
  set_line 1 ;;
  message lcd (str_of "End") 3 ;;
  set_cursor lcd 0 1 ;;
  message lcd [0x02] 0 ;;
  message lcd [0x03] 0 ;;
  ret lcd.

End Demo.

(** ** Bit-level facts about the masks used by [lcd_byte] *)

Section Bits.

Lemma land_pow2 (b n : Z) :
  0 <= n -> Z.land b (2 ^ n) = if Z.testbit b n then 2 ^ n else 0.
Proof.
  intros Hn. apply Z.bits_inj'. intros k Hk.
  rewrite Z.land_spec, Z.pow2_bits_eqb by assumption.
  destruct (Z.eqb_spec n k) as [->|Hne].
  - destruct (Z.testbit b k); simpl.
    + now rewrite Z.pow2_bits_true.
    + now rewrite Z.bits_0.
  - rewrite andb_false_r.
    destruct (Z.testbit b n).
    + now rewrite Z.pow2_bits_false.
    + now rewrite Z.bits_0.
Qed.

(** [bits & mask == mask] for a one-bit mask tests that bit. *)
Lemma mask_test (b n : Z) :
  0 <= n -> (Z.land b (2 ^ n) =? 2 ^ n) = Z.testbit b n.
Proof.
  intros Hn. rewrite land_pow2 by assumption.
  assert (0 < 2 ^ n) by (apply Z.pow_pos_nonneg; lia).
  destruct (Z.testbit b n).
  - apply Z.eqb_refl.
  - apply Z.eqb_neq. lia.
Qed.

Lemma bit_value (b n : Z) :
  0 <= n -> Z.b2z (Z.testbit b n) = (b / 2 ^ n) mod 2.
Proof. intros Hn. now apply Z.testbit_spec'. Qed.

Lemma low_nibble_bits (b : Z) :
  Z.b2z (Z.testbit b 0) + 2 * Z.b2z (Z.testbit b 1)
  + 4 * Z.b2z (Z.testbit b 2) + 8 * Z.b2z (Z.testbit b 3)
  = Z.land b 0xF.
Proof.
  change 0xF with (Z.ones 4). rewrite Z.land_ones by lia.
  rewrite !bit_value by lia.
  change (2 ^ 0) with 1; change (2 ^ 1) with 2; change (2 ^ 2) with 4;
    change (2 ^ 3) with 8; change (2 ^ 4) with 16.
  Z.div_mod_to_equations. lia.
Qed.

Lemma high_nibble_bits (b : Z) :
  Z.b2z (Z.testbit b 4) + 2 * Z.b2z (Z.testbit b 5)
  + 4 * Z.b2z (Z.testbit b 6) + 8 * Z.b2z (Z.testbit b 7)
  = Z.land (Z.shiftr b 4) 0xF.
Proof.
  rewrite <- low_nibble_bits.
  rewrite !Z.shiftr_spec by lia. reflexivity.
Qed.

Lemma byte_of_nibbles (b : Z) :
  16 * Z.land (Z.shiftr b 4) 0xF + Z.land b 0xF = b mod 256.
Proof.
  change 0xF with (Z.ones 4). rewrite !Z.land_ones by lia.
  rewrite Z.shiftr_div_pow2 by lia.
  change (2 ^ 4) with 16.
  Z.div_mod_to_equations. lia.
Qed.

End Bits.

(** ** The monad: traces compose by concatenation *)

Section Monad.

Context {A B : Type}.

Lemma bind_ok (m : IO A) (k : A -> IO B) (a : A) :
  outcome m = Ok a ->
  bind m k = (trace m ++ trace (k a), outcome (k a)).
Proof.
  destruct m as [t r]; simpl; intros ->. now destruct (k a).
Qed.

End Monad.

(** ** One byte transfer *)

(** Case analysis on the eight low bits of a byte. *)
Ltac by_bits b :=
  destruct (Z.testbit b 0), (Z.testbit b 1), (Z.testbit b 2),
    (Z.testbit b 3), (Z.testbit b 4), (Z.testbit b 5),
    (Z.testbit b 6), (Z.testbit b 7); reflexivity.

Lemma lcd_byte_ok (bits mode : Z) : outcome (lcd_byte bits mode) = Ok tt.
Proof.
  unfold lcd_byte, when.
  repeat match goal with |- context [Z.eqb ?x ?y] => destruct (Z.eqb x y) end;
    reflexivity.
Qed.

Lemma lcd_byte_calls (bits mode : Z) :
  trace (lcd_byte bits mode) =
  [PinValue RS mode; Sleep E_DELAY;
   PinValue D4 0; PinValue D5 0; PinValue D6 0; PinValue D7 0]
  ++ raised D4 (Z.testbit bits 4) ++ raised D5 (Z.testbit bits 5)
  ++ raised D6 (Z.testbit bits 6) ++ raised D7 (Z.testbit bits 7)
  ++ [Sleep E_DELAY; PinValue EN 1; Sleep E_PULSE; PinValue EN 0;
      Sleep E_DELAY;
      PinValue D4 0; PinValue D5 0; PinValue D6 0; PinValue D7 0]
  ++ raised D4 (Z.testbit bits 0) ++ raised D5 (Z.testbit bits 1)
  ++ raised D6 (Z.testbit bits 2) ++ raised D7 (Z.testbit bits 3)
  ++ [Sleep E_DELAY; PinValue EN 1; Sleep E_PULSE; PinValue EN 0;
      Sleep E_DELAY].
Proof.
  rewrite <- (mask_test bits 0), <- (mask_test bits 1), <- (mask_test bits 2),
    <- (mask_test bits 3), <- (mask_test bits 4), <- (mask_test bits 5),
    <- (mask_test bits 6), <- (mask_test bits 7) by lia.
  unfold lcd_byte. cbn [Z.pow Z.pow_pos Pos.iter Z.mul Pos.mul].
  repeat match goal with
         | |- context [Z.land bits ?k =? ?k] => destruct (Z.land bits k =? k)
         end; reflexivity.
Qed.

Lemma latches_lcd_byte (s : lines) (bits mode : Z) :
  latches s (trace (lcd_byte bits mode)) =
  [ {| latch_rs := level mode;
       latch_d4 := Z.testbit bits 4; latch_d5 := Z.testbit bits 5;
       latch_d6 := Z.testbit bits 6; latch_d7 := Z.testbit bits 7 |};
    {| latch_rs := level mode;
       latch_d4 := Z.testbit bits 0; latch_d5 := Z.testbit bits 1;
       latch_d6 := Z.testbit bits 2; latch_d7 := Z.testbit bits 3 |} ].
Proof.
  rewrite lcd_byte_calls.
  by_bits bits.
Qed.

Lemma latches_app (t1 t2 : list event) (s : lines) :
  latches s (t1 ++ t2) = latches s t1 ++ latches (run s t1) t2.
Proof.
  revert s. induction t1 as [|e t1 IH]; intros s; simpl.
  - reflexivity.
  - rewrite IH. now destruct (falling_edge s e).
Qed.

Lemma received_lcd_byte (s : lines) (bits mode : Z) (t : list event) :
  received s (trace (lcd_byte bits mode) ++ t) =
  (level mode, bits mod 256)
    :: received (run s (trace (lcd_byte bits mode))) t.
Proof.
  unfold received. rewrite latches_app, latches_lcd_byte.
  cbn [app transfers latch_rs]. unfold nibble; cbn [latch_d4 latch_d5 latch_d6 latch_d7].
  now rewrite high_nibble_bits, low_nibble_bits, byte_of_nibbles.
Qed.

Lemma received_sends (calls : list (Z * Z)) (s : lines) :
  received s (sends calls) =
  map (fun c => (level (snd c), fst c mod 256)) calls.
Proof.
  revert s. induction calls as [|[b m] calls IH]; intros s.
  - reflexivity.
  - unfold sends in *. cbn [flat_map fst snd map].
    now rewrite received_lcd_byte, IH.
Qed.

Lemma sends_app (c1 c2 : list (Z * Z)) : sends (c1 ++ c2) = sends c1 ++ sends c2.
Proof. unfold sends. apply flat_map_app. Qed.

Lemma sends_one (bits mode : Z) : sends [(bits, mode)] = trace (lcd_byte bits mode).
Proof. unfold sends. simpl. apply app_nil_r. Qed.

(** ** Loops that index a sequence *)

Lemma bind_lift_ok {A B} (a : A) (k : A -> IO B) : bind (lift (Ok a)) k = k a.
Proof. unfold lift, bind. now destruct (k a). Qed.

Lemma bind_assoc {A B C} (m : IO A) (k : A -> IO B) (h : B -> IO C) :
  bind (bind m k) h = bind m (fun a => bind (k a) h).
Proof.
  destruct m as [t [a|e]]; simpl; [|reflexivity].
  destruct (k a) as [t' [b|e]]; simpl; [|reflexivity].
  destruct (h b) as [t'' r]. now rewrite app_assoc.
Qed.

Section Loops.

Context {A : Type}.

Lemma getitem_at (pre : list A) (a : A) (post : list A) :
  getitem (pre ++ a :: post) (Z.of_nat (length pre)) = Ok a.
Proof.
  unfold getitem, len.
  destruct (Z.ltb_spec (Z.of_nat (length pre)) 0) as [H|_]; [lia|].
  rewrite length_app; cbn [length].
  destruct (Z.ltb_spec (Z.of_nat (length pre)) 0) as [H|_]; [lia|].
  destruct (Z.leb_spec (Z.of_nat (length pre + S (length post)))
              (Z.of_nat (length pre))) as [H|_]; [lia|].
  cbn [orb]. rewrite Nat2Z.id, nth_error_app2 by lia.
  now rewrite Nat.sub_diag.
Qed.

Lemma getitem_past (t : list A) (i : nat) :
  (length t <= i)%nat -> getitem t (Z.of_nat i) = Raise IndexError.
Proof.
  intros Hi. unfold getitem, len.
  destruct (Z.ltb_spec (Z.of_nat i) 0) as [H|_]; [lia|].
  destruct (Z.ltb_spec (Z.of_nat i) 0) as [H|_]; [lia|].
  destruct (Z.leb_spec (Z.of_nat (length t)) (Z.of_nat i)) as [_|H]; [|lia].
  reflexivity.
Qed.

(** [for i in range(n): body(t[i])], started at any offset into [t]. *)
Lemma for_each_index (body : A -> IO unit) (post : list A) :
  forall (n : nat) (pre : list A),
    for_each (map Z.of_nat (seq (length pre) n))
      (fun i => x <- lift (getitem (pre ++ post) i) ;; body x)
    = if (n <=? length post)%nat
      then for_each (firstn n post) body
      else for_each post body ;; lift (Raise IndexError).
Proof.
  induction post as [|a post IH]; intros [|n] pre.
  - reflexivity.
  - cbn [seq map for_each]. rewrite app_nil_r.
    rewrite getitem_past by lia. reflexivity.
  - reflexivity.
  - cbn [seq map for_each firstn length]. rewrite getitem_at, bind_lift_ok.
    replace (pre ++ a :: post) with ((pre ++ [a]) ++ post)
      by now rewrite <- app_assoc.
    replace (S (length pre)) with (length (pre ++ [a]))
      by (rewrite length_app; simpl; lia).
    rewrite IH. change (S n <=? S (length post))%nat with (n <=? length post)%nat.
    destruct (n <=? length post)%nat; [reflexivity|].
    now rewrite bind_assoc.
Qed.

Lemma for_range_all (body : A -> IO unit) (t : list A) :
  for_each (range (length t)) (fun i => x <- lift (getitem t i) ;; body x)
  = for_each t body.
Proof.
  unfold range. pose proof (for_each_index body t (length t) []) as H.
  cbn [length app] in H. rewrite H.
  now rewrite Nat.leb_refl, firstn_all.
Qed.

Lemma for_range_prefix (body : A -> IO unit) (t : list A) (n : nat) :
  (n <= length t)%nat ->
  for_each (range n) (fun i => x <- lift (getitem t i) ;; body x)
  = for_each (firstn n t) body.
Proof.
  intros Hn. unfold range. pose proof (for_each_index body t n []) as H.
  cbn [length app] in H. rewrite H.
  apply Nat.leb_le in Hn. now rewrite Hn.
Qed.

Lemma for_range_short (body : A -> IO unit) (t : list A) (n : nat) :
  (length t < n)%nat ->
  for_each (range n) (fun i => x <- lift (getitem t i) ;; body x)
  = (for_each t body ;; lift (Raise IndexError)).
Proof.
  intros Hn. unfold range. pose proof (for_each_index body t n []) as H.
  cbn [length app] in H. rewrite H.
  apply Nat.leb_gt in Hn. now rewrite Hn.
Qed.

End Loops.

(** Sending a sequence of values, one [lcd_byte] call each. *)
Lemma for_each_lcd_byte (mode : Z) (bs : list Z) :
  for_each bs (fun b => lcd_byte b mode)
  = (sends (map (fun b => (b, mode)) bs), Ok tt).
Proof.
  induction bs as [|b bs IH].
  - reflexivity.
  - cbn [for_each map]. rewrite (bind_ok _ _ tt (lcd_byte_ok b mode)), IH.
    reflexivity.
Qed.

(** ** The byte-transfer primitive *)

Lemma testbit_low_nibble (b i : Z) :
  0 <= i <= 3 -> Z.testbit (Z.land b 0xF) i = Z.testbit b i.
Proof.
  intros Hi. rewrite Z.land_spec.
  assert (H : i = 0 \/ i = 1 \/ i = 2 \/ i = 3) by lia.
  destruct H as [-> | [-> | [-> | ->]]]; apply andb_true_r.
Qed.

Lemma testbit_high_nibble (b i : Z) :
  0 <= i <= 3 -> Z.testbit (Z.land (Z.shiftr b 4) 0xF) i = Z.testbit b (i + 4).
Proof.
  intros Hi. rewrite testbit_low_nibble by assumption.
  apply Z.shiftr_spec. lia.
Qed.

Lemma lcd_byte_phases (b m : Z) :
  trace (lcd_byte b m) =
  [PinValue RS m; Sleep E_DELAY]
  ++ drive_nibble (Z.land (Z.shiftr b 4) 0xF) ++ latch_pulse
  ++ drive_nibble (Z.land b 0xF) ++ latch_pulse.
Proof.
  rewrite lcd_byte_calls. unfold drive_nibble.
  rewrite !testbit_high_nibble, !testbit_low_nibble by lia.
  cbn [Z.add Pos.add Pos.succ].
  now rewrite <- !app_assoc.
Qed.

Lemma on_lines_low (rs : bool) (b : Z) :
  on_lines rs (Z.land b 0xF) =
  {| latch_rs := rs;
     latch_d4 := Z.testbit b 0; latch_d5 := Z.testbit b 1;
     latch_d6 := Z.testbit b 2; latch_d7 := Z.testbit b 3 |}.
Proof.
  unfold on_lines. rewrite !Z.land_spec. cbn [Z.testbit Pos.testbit Z.to_N Pos.pred_N N.of_nat].
  now rewrite !andb_true_r.
Qed.

Lemma on_lines_high (rs : bool) (b : Z) :
  on_lines rs (Z.land (Z.shiftr b 4) 0xF) =
  {| latch_rs := rs;
     latch_d4 := Z.testbit b 4; latch_d5 := Z.testbit b 5;
     latch_d6 := Z.testbit b 6; latch_d7 := Z.testbit b 7 |}.
Proof.
  rewrite on_lines_low. now rewrite !Z.shiftr_spec by lia.
Qed.

Lemma nibble_on_lines (rs : bool) (x : Z) :
  nibble (on_lines rs (Z.land x 0xF)) = Z.land x 0xF.
Proof.
  unfold nibble, on_lines; cbn [latch_d4 latch_d5 latch_d6 latch_d7].
  rewrite low_nibble_bits, <- Z.land_assoc. reflexivity.
Qed.

Lemma sleeps_lcd_byte (b m : Z) :
  sleeps (trace (lcd_byte b m)) =
  [E_DELAY; E_DELAY; E_PULSE; E_DELAY; E_DELAY; E_PULSE; E_DELAY].
Proof.
  rewrite lcd_byte_calls.
  by_bits b.
Qed.

(** C2: [lcd_byte(b, m)] starts by setting register-select to [m] (its
    only write to that line), then puts the high nibble [(b >> 4) & 0xF]
    on the data lines and runs one enable-latch sequence, then does the
    same with the low nibble [b & 0xF]; enable is raised and lowered
    exactly twice.  On each falling edge the data lines carry the
    nibble with bit i on line d(4+i); the controller therefore receives
    the byte [b] in register [m].  This holds from any state of the lines
    and for every integer [b]; for a byte in 0..255 the value received
    is [b] itself. *)
Theorem lcd_byte_two_nibbles (s : lines) (b m : Z) :
  trace (lcd_byte b m) =
    [PinValue RS m; Sleep E_DELAY]
    ++ drive_nibble (Z.land (Z.shiftr b 4) 0xF) ++ latch_pulse
    ++ drive_nibble (Z.land b 0xF) ++ latch_pulse
  /\ values_on RS (trace (lcd_byte b m)) = [m]
  /\ values_on EN (trace (lcd_byte b m)) = [1; 0; 1; 0]
  /\ latches s (trace (lcd_byte b m)) =
       [on_lines (level m) (Z.land (Z.shiftr b 4) 0xF);
        on_lines (level m) (Z.land b 0xF)]
  /\ nibble (on_lines (level m) (Z.land (Z.shiftr b 4) 0xF))
     = Z.land (Z.shiftr b 4) 0xF
  /\ nibble (on_lines (level m) (Z.land b 0xF)) = Z.land b 0xF
  /\ received s (trace (lcd_byte b m)) = [(level m, b mod 256)]
  /\ level LCD_CMD = false /\ level LCD_CHR = true.
Proof.
  repeat apply conj.
  - apply lcd_byte_phases.
  - rewrite lcd_byte_calls.
    by_bits b.
  - rewrite lcd_byte_calls.
    by_bits b.
  - now rewrite latches_lcd_byte, on_lines_high, on_lines_low.
  - apply nibble_on_lines.
  - apply nibble_on_lines.
  - rewrite <- (app_nil_r (trace (lcd_byte b m))).
    now rewrite received_lcd_byte.
  - reflexivity.
  - reflexivity.
Qed.

(** ** Initialisation, clear and home *)

(** C3: construction binds the six pins and then always makes, in this
    order and with nothing in between, the command-mode transfers 0x33,
    0x32, 0x28, 0x0C, 0x06 and the clear command 0x01 (followed by the
    settle delay of [clear]); the controller receives exactly these six
    bytes in its command register, and the constructor returns. *)
Theorem init_sequence (rs en d4 d5 d6 d7 cols rows : Z) (s : lines) :
  trace (init rs en d4 d5 d6 d7 cols rows) =
    [PinOut RS rs; PinOut EN en; PinOut D4 d4; PinOut D5 d5;
     PinOut D6 d6; PinOut D7 d7]
    ++ sends [cmd 0x33; cmd 0x32; cmd 0x28; cmd 0x0C; cmd 0x06; cmd 0x01]
    ++ [Sleep HOMEDELAY]
  /\ received s (trace (init rs en d4 d5 d6 d7 cols rows)) =
       [(false, 0x33); (false, 0x32); (false, 0x28); (false, 0x0C);
        (false, 0x06); (false, 0x01)]
  /\ outcome (init rs en d4 d5 d6 d7 cols rows) =
       Ok {| cols := cols; rows := rows; displaycontrol := 0x04 |}
  /\ 0x0C = Z.lor LCD_DISPLAYCONTROL LCD_DISPLAYON
  /\ 0x01 = LCD_CLEAR.
Proof.
  repeat apply conj; reflexivity.
Qed.

(** C9: [clear()] and [home()] each make one command transfer (0x01,
    respectively 0x02) and then call [sleep(HOMEDELAY)] with
    HOMEDELAY = 0.05, which is strictly longer than every sleep made
    inside a byte transfer (E_DELAY = E_PULSE = 0.0005). *)
Theorem clear_home_settle (s : lines) (b m : Z) :
  trace clear = sends [cmd 0x01] ++ [Sleep HOMEDELAY]
  /\ trace home = sends [cmd 0x02] ++ [Sleep HOMEDELAY]
  /\ outcome clear = Ok tt /\ outcome home = Ok tt
  /\ received s (trace clear) = [(false, 0x01)]
  /\ received s (trace home) = [(false, 0x02)]
  /\ HOMEDELAY = 0.05%float
  /\ sleeps (trace (lcd_byte b m)) =
       [E_DELAY; E_DELAY; E_PULSE; E_DELAY; E_DELAY; E_PULSE; E_DELAY]
  /\ E_DELAY = 0.0005%float /\ E_PULSE = 0.0005%float
  /\ PrimFloat.ltb E_DELAY HOMEDELAY = true
  /\ PrimFloat.ltb E_PULSE HOMEDELAY = true.
Proof.
  repeat apply conj; try (destruct s; reflexivity).
  apply sleeps_lcd_byte.
Qed.

(** ** Text output *)

Lemma send_text (msg : str) :
  (m <- lift (Ok msg) ;;
   for_each (range (length m)) (fun i =>
     c <- lift (getitem m i) ;;
     lcd_byte c LCD_CHR))
  = (sends (map chr msg), Ok tt).
Proof.
  rewrite bind_lift_ok, for_range_all. apply for_each_lcd_byte.
Qed.

Lemma received_chars (s : lines) (msg : str) :
  received s (sends (map chr msg)) = map (fun c => (true, c mod 256)) msg.
Proof. rewrite received_sends, map_map. reflexivity. Qed.

Lemma format_align_ok (a : alignment) (text : str) (width : Z) :
  0 <= width ->
  let pad := Z.to_nat (width - len text) in
  format_align a text width =
  Ok match a with
     | AlignLeft => text ++ repeat space pad
     | AlignCenter =>
         repeat space (pad / 2) ++ text ++ repeat space (pad - pad / 2)
     | AlignRight => repeat space pad ++ text
     end.
Proof.
  intros Hw pad. unfold format_align.
  destruct (Z.ltb_spec width 0) as [H|_]; [lia|].
  assert (Hpad : Z.max 0 (width - len text) = Z.of_nat pad)
    by (subst pad; lia).
  rewrite Hpad. destruct a.
  - rewrite Z.sub_0_r, Nat2Z.id. reflexivity.
  - assert (Hl : Z.to_nat (Z.of_nat pad / 2) = (pad / 2)%nat)
      by (rewrite Z2Nat.inj_div by lia; now rewrite Nat2Z.id).
    assert (Hr : Z.to_nat (Z.of_nat pad - Z.of_nat pad / 2)
                 = (pad - pad / 2)%nat).
    { rewrite Z2Nat.inj_sub by (apply Z.div_pos; lia).
      now rewrite Hl, Nat2Z.id. }
    now rewrite Hl, Hr.
  - rewrite Z.sub_diag, Nat2Z.id. simpl. now rewrite app_nil_r.
Qed.

Lemma format_align_long (a : alignment) (text : str) (width : Z) :
  0 <= width <= len text -> format_align a text width = Ok text.
Proof.
  intros [Hw Hl]. rewrite format_align_ok by assumption.
  replace (Z.to_nat (width - len text)) with 0%nat by lia.
  destruct a; simpl; now rewrite ?app_nil_r.
Qed.

(** C4: on a display of [cols] columns, [message(text, 1)] sends [text]
    followed by [cols - len(text)] spaces, [message(text, 3)] sends that
    many spaces and then [text], and [message(text, 2)] sends half of
    the padding (rounded down) before [text] and the rest after it, so
    the extra space of an odd padding goes to the right.  (No spaces are
    added when the text is at least [cols] long.)  Every character is
    one character-mode [lcd_byte] call, in order.  On 16 columns "AB"
    left-justified is "AB" and 14 spaces, centered it is 7 spaces, "AB",
    7 spaces; "ABC" centered is 6 spaces, "ABC", 7 spaces. *)
Theorem message_justified (self : CharLCD) (text : str) :
  0 <= cols self ->
  let pad := Z.to_nat (cols self - len text) in
  message self text 1 =
    (sends (map chr (text ++ repeat space pad)), Ok tt)
  /\ message self text 3 =
    (sends (map chr (repeat space pad ++ text)), Ok tt)
  /\ message self text 2 =
    (sends (map chr (repeat space (pad / 2) ++ text
                     ++ repeat space (pad - pad / 2))), Ok tt)
  /\ (pad - pad / 2 = pad / 2 + pad mod 2)%nat
  /\ message lcd16x2 (str_of "AB") 1 =
    (sends (map chr (str_of "AB" ++ repeat space 14)), Ok tt)
  /\ message lcd16x2 (str_of "AB") 2 =
    (sends (map chr (repeat space 7 ++ str_of "AB" ++ repeat space 7)), Ok tt)
  /\ message lcd16x2 (str_of "ABC") 2 =
    (sends (map chr (repeat space 6 ++ str_of "ABC" ++ repeat space 7)), Ok tt)
  /\ received idle (trace (message lcd16x2 (str_of "AB") 1)) =
    map (fun c => (true, c)) (str_of "AB" ++ repeat space 14).
Proof.
  intros Hc pad. repeat apply conj; try reflexivity.
  - unfold message. cbn [Z.eqb Pos.eqb].
    rewrite (format_align_ok AlignLeft) by assumption. apply send_text.
  - unfold message. cbn [Z.eqb Pos.eqb].
    rewrite (format_align_ok AlignRight) by assumption. apply send_text.
  - unfold message. cbn [Z.eqb Pos.eqb].
    rewrite (format_align_ok AlignCenter) by assumption. apply send_text.
  - pose proof (Nat.div_mod_eq pad 2). lia.
Qed.

Lemma message_justified_witness :
  0 <= cols lcd16x2
  /\ message lcd16x2 (str_of "Hello") 2 =
     (sends (map chr (repeat space 5 ++ str_of "Hello" ++ repeat space 6)),
      Ok tt).
Proof.
  assert (H : 0 <= cols lcd16x2) by (simpl; lia).
  split; [exact H|].
  exact (proj1 (proj2 (proj2 (message_justified lcd16x2 (str_of "Hello") H)))).
Defined.

(** C10: [message(text, align)] sends exactly the characters of [text],
    neither padded nor truncated, for every [align] other than 1, 2 and
    3, and also, whatever [align] is, when [text] is at least as long
    as the column count. *)
Theorem message_literal (self : CharLCD) (text : str) (align : Z) :
  (align <> 1 /\ align <> 2 /\ align <> 3 ->
   message self text align = (sends (map chr text), Ok tt))
  /\ (0 <= cols self <= len text ->
      message self text align = (sends (map chr text), Ok tt)).
Proof.
  split.
  - intros (H1 & H2 & H3). unfold message.
    apply Z.eqb_neq in H1, H2, H3. rewrite H1, H2, H3.
    apply send_text.
  - intros Hc. unfold message.
    rewrite !format_align_long by assumption.
    destruct (align =? 1), (align =? 2), (align =? 3); apply send_text.
Qed.

Lemma message_literal_witness :
  message lcd16x2 (str_of "Underline") 0 =
    (sends (map chr (str_of "Underline")), Ok tt)
  /\ message lcd16x2 (str_of "A line of twenty chr") 2 =
    (sends (map chr (str_of "A line of twenty chr")), Ok tt).
Proof.
  split.
  - apply (proj1 (message_literal lcd16x2 (str_of "Underline") 0)).
    repeat split; discriminate.
  - apply (proj2 (message_literal lcd16x2 (str_of "A line of twenty chr") 2)).
    vm_compute. split; discriminate.
Defined.

(** ** Cursor addressing *)

Lemma sends_cons (b m : Z) (calls : list (Z * Z)) :
  sends ((b, m) :: calls) = trace (lcd_byte b m) ++ sends calls.
Proof. reflexivity. Qed.

Lemma lcd_byte_sends (b m : Z) : lcd_byte b m = (sends [(b, m)], Ok tt).
Proof.
  rewrite sends_one, <- (lcd_byte_ok b m). unfold trace, outcome.
  now destruct (lcd_byte b m).
Qed.

(** A row strictly beyond the row count is clamped to the last row. *)
Lemma set_cursor_clamps_above (self : CharLCD) (col row : Z) :
  rows self < row ->
  set_cursor self col row = set_cursor self col (rows self - 1).
Proof.
  intros Hr. unfold set_cursor.
  destruct (Z.ltb_spec (rows self) row) as [_|H]; [|lia].
  destruct (Z.ltb_spec (rows self) (rows self - 1)) as [H|_]; [lia|].
  reflexivity.
Qed.

(** C1, at the row equal to the row count: the guard [row > rows] lets
    it through unclamped.  On a 16x2 display [set_cursor(0, 2)] sends
    0x80 | 0x14 = 0x94, the address of a third row, where
    [set_cursor(0, 1)] sends 0x80 | 0x40 = 0xC0; on a 20x4 display
    [set_cursor(0, 4)] indexes past the offset table and raises
    IndexError without sending anything, where [set_cursor(0, 3)] sends
    0xD4. *)
Theorem set_cursor_row_equal_rows :
  rows lcd16x2 = 2
  /\ set_cursor lcd16x2 0 2 = (sends [cmd 0x94], Ok tt)
  /\ set_cursor lcd16x2 0 1 = (sends [cmd 0xC0], Ok tt)
  /\ received idle (trace (set_cursor lcd16x2 0 2)) = [(false, 0x94)]
  /\ received idle (trace (set_cursor lcd16x2 0 1)) = [(false, 0xC0)]
  /\ set_cursor lcd16x2 0 2 <> set_cursor lcd16x2 0 1
  /\ rows lcd20x4 = 4
  /\ set_cursor lcd20x4 0 4 = ([], Raise IndexError)
  /\ set_cursor lcd20x4 0 3 = (sends [cmd 0xD4], Ok tt).
Proof.
  repeat apply conj; try reflexivity.
  intros H. apply (f_equal (fun r => received idle (trace r))) in H.
  vm_compute in H. discriminate H.
Qed.

(** C7, as the code has it: for [num] in 0..3 [set_line(num)] sends
    exactly one command byte, the [num]-th entry of (0x80, 0xC0, 0x94,
    0xD4); for [num] in -4..-1 the tuple is indexed from its end, so
    [set_line(num)] does what [set_line(num + 4)] does; for every other
    [num] it raises IndexError and sends nothing. *)
Theorem set_line_table (num : Z) :
  (0 <= num <= 3 ->
   exists line,
     nth_error [0x80; 0xC0; 0x94; 0xD4] (Z.to_nat num) = Some line
     /\ set_line num = (sends [cmd line], Ok tt))
  /\ (-4 <= num <= -1 -> set_line num = set_line (num + 4))
  /\ (num < -4 \/ 3 < num -> set_line num = ([], Raise IndexError)).
Proof.
  repeat apply conj.
  - intros H.
    assert (Hn : num = 0 \/ num = 1 \/ num = 2 \/ num = 3) by lia.
    destruct Hn as [-> | [-> | [-> | ->]]]; eexists; split; reflexivity.
  - intros H.
    assert (Hn : num = -4 \/ num = -3 \/ num = -2 \/ num = -1) by lia.
    destruct Hn as [-> | [-> | [-> | ->]]]; reflexivity.
  - intros H. unfold set_line, getitem, len, LCD_LINES. cbn [length Z.of_nat Pos.of_succ_nat Pos.succ].
    destruct (Z.ltb_spec num 0) as [Hneg|Hpos].
    + destruct (Z.ltb_spec (num + 4) 0) as [_|H']; [reflexivity|lia].
    + destruct (Z.ltb_spec num 0) as [H'|_]; [lia|].
      destruct (Z.leb_spec 4 num) as [_|H']; [reflexivity|lia].
Qed.

Lemma set_line_table_witness :
  (0 <= 2 <= 3 /\ set_line 2 = (sends [cmd 0x94], Ok tt))
  /\ (-4 <= -3 <= -1 /\ set_line (-3) = set_line (-3 + 4))
  /\ ((7 < -4 \/ 3 < 7) /\ set_line 7 = ([], Raise IndexError)).
Proof.
  repeat apply conj; try lia.
  - destruct (proj1 (set_line_table 2)) as (line & Hl & Hs); [lia|].
    simpl in Hl. injection Hl as <-. exact Hs.
  - apply (proj1 (proj2 (set_line_table (-3)))). lia.
  - apply (proj2 (proj2 (set_line_table 7))). right; lia.
Defined.

(** The claim that every [num] outside 0..3 fails does not hold:
    [set_line(-1)] returns normally after sending 0xD4, the last entry
    of the table. *)
Lemma set_line_negative_index_succeeds :
  ~ (forall num, num < 0 \/ 3 < num -> set_line num = ([], Raise IndexError)).
Proof.
  intros H. specialize (H (-1)).
  assert (Hs : set_line (-1) = (sends [cmd 0xD4], Ok tt)) by reflexivity.
  rewrite Hs in H.
  assert (Hc : -1 < 0 \/ 3 < -1) by (left; lia).
  specialize (H Hc). discriminate H.
Qed.

(** ** Custom characters *)

Lemma create_char_full (location : Z) (pattern : list Z) :
  (8 <= length pattern)%nat ->
  create_char location pattern =
  (sends (cmd (Z.lor LCD_SETCGRAMADDR (Z.shiftl (Z.land location 0x7) 3))
            :: map chr (firstn 8 pattern)),
   Ok tt).
Proof.
  intros Hp. unfold create_char.
  rewrite for_range_prefix by assumption.
  rewrite (for_each_lcd_byte LCD_CHR), lcd_byte_sends.
  unfold bind. now rewrite <- sends_app.
Qed.

Lemma create_char_short (location : Z) (pattern : list Z) :
  (length pattern < 8)%nat ->
  create_char location pattern =
  (sends (cmd (Z.lor LCD_SETCGRAMADDR (Z.shiftl (Z.land location 0x7) 3))
            :: map chr pattern),
   Raise IndexError).
Proof.
  intros Hp. unfold create_char.
  rewrite for_range_short by assumption.
  rewrite (for_each_lcd_byte LCD_CHR), lcd_byte_sends.
  unfold bind, lift. now rewrite app_nil_r, <- sends_app.
Qed.

(** C6: [create_char] masks the slot to its low three bits instead of
    rejecting it.  For a pattern of at least 8 bytes,
    [create_char(8, pattern)] makes the same calls with the same
    outcome as [create_char(0, pattern)], and [create_char(15, pattern)]
    as [create_char(7, pattern)]; all of them return normally.  More
    generally any slot behaves as the slot masked with 7. *)
Theorem create_char_slot_masked (pattern : list Z) :
  (8 <= length pattern)%nat ->
  create_char 8 pattern = create_char 0 pattern
  /\ create_char 15 pattern = create_char 7 pattern
  /\ outcome (create_char 8 pattern) = Ok tt
  /\ outcome (create_char 15 pattern) = Ok tt
  /\ forall slot, create_char slot pattern = create_char (Z.land slot 0x7) pattern.
Proof.
  intros Hp. repeat apply conj.
  - now rewrite !create_char_full.
  - now rewrite !create_char_full.
  - now rewrite create_char_full.
  - now rewrite create_char_full.
  - intros slot. rewrite !create_char_full by assumption.
    now rewrite <- Z.land_assoc.
Qed.

Lemma create_char_slot_masked_witness :
  (8 <= length [7; 12; 24; 16; 22; 22; 22; 16])%nat
  /\ create_char 8 [7; 12; 24; 16; 22; 22; 22; 16]
     = create_char 0 [7; 12; 24; 16; 22; 22; 22; 16]
  /\ create_char 15 [7; 12; 24; 16; 22; 22; 22; 16]
     = create_char 7 [7; 12; 24; 16; 22; 22; 22; 16].
Proof.
  assert (H : (8 <= length [7; 12; 24; 16; 22; 22; 22; 16])%nat)
    by (simpl; lia).
  pose proof (create_char_slot_masked [7; 12; 24; 16; 22; 22; 22; 16] H)
    as (H8 & H15 & _).
  exact (conj H (conj H8 H15)).
Defined.

(** C8: for a pattern of at least 8 bytes [create_char(slot, pattern)]
    sends the CGRAM-set command 0x40 | ((slot & 7) << 3) and then
    exactly the first 8 pattern bytes, in order, each as one
    character-mode transfer, and returns.  For a shorter pattern it
    sends the command and all the bytes the pattern has, and then
    raises IndexError. *)
Theorem create_char_pattern (slot : Z) (pattern : list Z) :
  ((8 <= length pattern)%nat ->
   create_char slot pattern =
   (sends (cmd (Z.lor LCD_SETCGRAMADDR (Z.shiftl (Z.land slot 0x7) 3))
             :: map chr (firstn 8 pattern)),
    Ok tt))
  /\ ((length pattern < 8)%nat ->
      create_char slot pattern =
      (sends (cmd (Z.lor LCD_SETCGRAMADDR (Z.shiftl (Z.land slot 0x7) 3))
                :: map chr pattern),
       Raise IndexError)).
Proof.
  split; [apply create_char_full | apply create_char_short].
Qed.

Lemma create_char_pattern_witness :
  ((8 <= length [1; 2; 3; 4; 5; 6; 7; 8; 9])%nat
   /\ create_char 1 [1; 2; 3; 4; 5; 6; 7; 8; 9] =
      (sends (cmd 0x48 :: map chr [1; 2; 3; 4; 5; 6; 7; 8]), Ok tt))
  /\ ((length [28; 6; 3] < 8)%nat
      /\ create_char 1 [28; 6; 3] =
         (sends (cmd 0x48 :: map chr [28; 6; 3]), Raise IndexError)).
Proof.
  split; split; try (simpl; lia).
  - apply (proj1 (create_char_pattern 1 [1; 2; 3; 4; 5; 6; 7; 8; 9])).
    simpl; lia.
  - apply (proj2 (create_char_pattern 1 [28; 6; 3])). simpl; lia.
Defined.

(** ** Display control *)

Section Flags.

Variables (dc k : Z).
Hypothesis Hk : 0 <= k.

Lemma flag_set : Z.testbit (Z.lor dc (2 ^ k)) k = true.
Proof. rewrite Z.lor_spec, Z.pow2_bits_true by assumption. apply orb_true_r. Qed.

Lemma flag_cleared : Z.testbit (Z.land dc (Z.lnot (2 ^ k))) k = false.
Proof.
  rewrite Z.land_spec, Z.lnot_spec, Z.pow2_bits_true by assumption.
  apply andb_false_r.
Qed.

Lemma flag_set_frame : Z.ldiff (Z.lor dc (2 ^ k)) (2 ^ k) = Z.ldiff dc (2 ^ k).
Proof.
  apply Z.bits_inj'. intros i Hi.
  rewrite !Z.ldiff_spec, Z.lor_spec.
  destruct (Z.testbit dc i), (Z.testbit (2 ^ k) i); reflexivity.
Qed.

Lemma flag_cleared_frame :
  Z.ldiff (Z.land dc (Z.lnot (2 ^ k))) (2 ^ k) = Z.ldiff dc (2 ^ k).
Proof.
  apply Z.bits_inj'. intros i Hi.
  rewrite !Z.ldiff_spec, Z.land_spec, Z.lnot_spec by assumption.
  destruct (Z.testbit dc i), (Z.testbit (2 ^ k) i); reflexivity.
Qed.

End Flags.

Lemma flag_update (dc k : Z) (on : bool) :
  0 <= k ->
  let dc' := if on then Z.lor dc (2 ^ k) else Z.land dc (Z.lnot (2 ^ k)) in
  Z.testbit dc' k = on
  /\ Z.ldiff dc' (2 ^ k) = Z.ldiff dc (2 ^ k)
  /\ forall i, 0 <= i -> i <> k -> Z.testbit dc' i = Z.testbit dc i.
Proof.
  intros Hk dc'. subst dc'. destruct on; repeat apply conj.
  - now apply flag_set.
  - apply flag_set_frame.
  - intros i Hi Hne. rewrite Z.lor_spec, Z.pow2_bits_false by lia.
    apply orb_false_r.
  - now apply flag_cleared.
  - apply flag_cleared_frame.
  - intros i Hi Hne.
    rewrite Z.land_spec, Z.lnot_spec, Z.pow2_bits_false by lia.
    apply andb_true_r.
Qed.

(** C5, as the code has it: after construction [displaycontrol] is 0x04
    (display on, cursor off, blink off).  Each of [enable(on)],
    [show_underline(on)] and [show_blink(on)] sets its own flag bit
    (bit 2, 1, 0 respectively) to [on], leaves the other two flag bits
    and every other bit of [displaycontrol] as they were, sends exactly
    one command byte, LCD_DISPLAYCONTROL | displaycontrol with the new
    mask, and leaves [cols] and [rows] alone.  Hence after construction
    [show_blink(True)] sends 0x0D (display on and blink) and a following
    [show_underline(True)] sends 0x0F (all three flags): two commands,
    one per call, each the full mask of the moment. *)
Theorem display_control_toggles (self : CharLCD) (on : bool) :
  (forall rs en d4 d5 d6 d7 c r,
      outcome (init rs en d4 d5 d6 d7 c r) =
      Ok {| cols := c; rows := r; displaycontrol := 0x04 |})
  /\ (exists dc',
         enable self on =
         (sends [cmd (Z.lor LCD_DISPLAYCONTROL dc')],
          Ok (with_displaycontrol self dc'))
         /\ Z.testbit dc' 2 = on
         /\ Z.testbit dc' 1 = Z.testbit (displaycontrol self) 1
         /\ Z.testbit dc' 0 = Z.testbit (displaycontrol self) 0
         /\ Z.ldiff dc' LCD_DISPLAYON
            = Z.ldiff (displaycontrol self) LCD_DISPLAYON)
  /\ (exists dc',
         show_underline self on =
         (sends [cmd (Z.lor LCD_DISPLAYCONTROL dc')],
          Ok (with_displaycontrol self dc'))
         /\ Z.testbit dc' 1 = on
         /\ Z.testbit dc' 2 = Z.testbit (displaycontrol self) 2
         /\ Z.testbit dc' 0 = Z.testbit (displaycontrol self) 0
         /\ Z.ldiff dc' LCD_CURSORON
            = Z.ldiff (displaycontrol self) LCD_CURSORON)
  /\ (exists dc',
         show_blink self on =
         (sends [cmd (Z.lor LCD_DISPLAYCONTROL dc')],
          Ok (with_displaycontrol self dc'))
         /\ Z.testbit dc' 0 = on
         /\ Z.testbit dc' 2 = Z.testbit (displaycontrol self) 2
         /\ Z.testbit dc' 1 = Z.testbit (displaycontrol self) 1
         /\ Z.ldiff dc' LCD_BLINKON
            = Z.ldiff (displaycontrol self) LCD_BLINKON)
  /\ outcome demo_lcd = Ok lcd16x2
  /\ show_blink lcd16x2 true =
     (sends [cmd 0x0D], Ok (with_displaycontrol lcd16x2 0x05))
  /\ show_underline (with_displaycontrol lcd16x2 0x05) true =
     (sends [cmd 0x0F], Ok (with_displaycontrol lcd16x2 0x07))
  /\ 0x0F = Z.lor LCD_DISPLAYCONTROL
              (Z.lor (Z.lor LCD_DISPLAYON LCD_CURSORON) LCD_BLINKON)
  /\ skipn 6 (received idle (trace blink_then_underline))
     = [(false, 0x0D); (false, 0x0F)].
Proof.
  repeat apply conj; try reflexivity.
  - destruct (flag_update (displaycontrol self) 2 on) as (Hb & Hf & Ho); [lia|].
    exists (if on then Z.lor (displaycontrol self) LCD_DISPLAYON
            else Z.land (displaycontrol self) (Z.lnot LCD_DISPLAYON)).
    repeat apply conj.
    + unfold enable. rewrite lcd_byte_sends.
      unfold bind, ret. rewrite app_nil_r.
      destruct on; reflexivity.
    + exact Hb.
    + apply Ho; lia.
    + apply Ho; lia.
    + exact Hf.
  - destruct (flag_update (displaycontrol self) 1 on) as (Hb & Hf & Ho); [lia|].
    exists (if on then Z.lor (displaycontrol self) LCD_CURSORON
            else Z.land (displaycontrol self) (Z.lnot LCD_CURSORON)).
    repeat apply conj.
    + unfold show_underline. rewrite lcd_byte_sends.
      unfold bind, ret. rewrite app_nil_r.
      destruct on; reflexivity.
    + exact Hb.
    + apply Ho; lia.
    + apply Ho; lia.
    + exact Hf.
  - destruct (flag_update (displaycontrol self) 0 on) as (Hb & Hf & Ho); [lia|].
    exists (if on then Z.lor (displaycontrol self) LCD_BLINKON
            else Z.land (displaycontrol self) (Z.lnot LCD_BLINKON)).
    repeat apply conj.
    + unfold show_blink. rewrite lcd_byte_sends.
      unfold bind, ret. rewrite app_nil_r.
      destruct on; reflexivity.
    + exact Hb.
    + apply Ho; lia.
    + apply Ho; lia.
    + exact Hf.
Qed.

(** The claim that [show_blink(True)] followed by [show_underline(True)]
    after construction sends the all-flags command twice does not
    hold: the first of the two commands is 0x0D, with the cursor flag
    still clear, and only the second is 0x0F. *)
Lemma blink_then_underline_first_command :
  outcome demo_lcd = Ok lcd16x2
  /\ trace (show_blink lcd16x2 true) = sends [cmd 0x0D]
  /\ skipn 6 (received idle (trace blink_then_underline))
     <> [(false, 0x0F); (false, 0x0F)].
Proof.
  repeat apply conj; try reflexivity.
  vm_compute. discriminate.
Qed.

(** ** Further properties of the byte transfer *)

Lemma run_app (t1 t2 : list event) (s : lines) :
  run s (t1 ++ t2) = run (run s t1) t2.
Proof. apply fold_left_app. Qed.

Lemma run_lcd_byte (s : lines) (b m : Z) :
  run s (trace (lcd_byte b m)) =
  {| l_rs := level m; l_en := false;
     l_d4 := Z.testbit b 0; l_d5 := Z.testbit b 1;
     l_d6 := Z.testbit b 2; l_d7 := Z.testbit b 3 |}.
Proof.
  rewrite lcd_byte_calls. by_bits b.
Qed.

Lemma enable_low_after_sends (calls : list (Z * Z)) (s : lines) :
  l_en s = false -> l_en (run s (sends calls)) = false.
Proof.
  revert s. induction calls as [|[b m] calls IH]; intros s Hs.
  - exact Hs.
  - rewrite sends_cons, run_app. apply IH. now rewrite run_lcd_byte.
Qed.

(** X1: whatever the six lines were before, after [lcd_byte(b, m)]
    register-select is at [m], enable is low and the data lines still
    carry the low nibble of [b]. *)
Theorem lcd_byte_leaves_low_nibble (s : lines) (b m : Z) :
  run s (trace (lcd_byte b m)) =
  {| l_rs := level m; l_en := false;
     l_d4 := Z.testbit b 0; l_d5 := Z.testbit b 1;
     l_d6 := Z.testbit b 2; l_d7 := Z.testbit b 3 |}.
Proof. apply run_lcd_byte. Qed.

Lemma testbit_low_byte (b i : Z) :
  0 <= i < 8 -> Z.testbit (b mod 256) i = Z.testbit b i.
Proof.
  intros Hi. change 256 with (2 ^ 8). apply Z.mod_pow2_bits_low. lia.
Qed.

(** X2: only the low eight bits of the value matter.  [lcd_byte(b, m)]
    makes exactly the calls of [lcd_byte(b % 256, m)], for every integer
    [b], negative or beyond 255 (a code point above 255 is sent as its
    low byte). *)
Theorem lcd_byte_low_byte_only (b m : Z) :
  lcd_byte b m = lcd_byte (b mod 256) m.
Proof.
  rewrite (lcd_byte_sends b), (lcd_byte_sends (b mod 256)), !sends_one.
  rewrite !lcd_byte_calls, !testbit_low_byte by lia.
  reflexivity.
Qed.

(** X3: the 4-bit protocol loses nothing.  For any series of
    [lcd_byte] calls with values in 0..255 and modes LCD_CMD or LCD_CHR,
    sampling the lines on the falling edges of enable recovers every
    value with its register, in order, whatever state the lines
    started in. *)
Theorem protocol_round_trip (s : lines) (calls : list (Z * Z)) :
  Forall (fun c => 0 <= fst c < 256 /\ (snd c = LCD_CMD \/ snd c = LCD_CHR))
    calls ->
  received s (sends calls) = map (fun c => (snd c =? LCD_CHR, fst c)) calls.
Proof.
  intros Hc. rewrite received_sends.
  apply map_ext_in. intros [b m] Hin.
  rewrite Forall_forall in Hc. destruct (Hc _ Hin) as [Hb Hm].
  cbn [fst snd] in *. rewrite Z.mod_small by assumption.
  destruct Hm as [-> | ->]; reflexivity.
Qed.

Lemma protocol_round_trip_witness :
  received idle (sends [(0xC0, LCD_CMD); (0x41, LCD_CHR); (0xFF, LCD_CHR)])
  = [(false, 0xC0); (true, 0x41); (true, 0xFF)].
Proof.
  apply (protocol_round_trip idle
           [(0xC0, LCD_CMD); (0x41, LCD_CHR); (0xFF, LCD_CHR)]).
  repeat constructor; cbn [fst snd]; lia.
Defined.

(** ** Further properties of text output *)

Lemma message_padded (self : CharLCD) (text : str) (align : Z) :
  0 <= cols self ->
  exists l r : nat,
    message self text align =
    (sends (map chr (repeat space l ++ text ++ repeat space r)), Ok tt)
    /\ Z.of_nat (l + length text + r) =
       if (align =? 1) || (align =? 2) || (align =? 3)
       then Z.max (cols self) (len text)
       else len text.
Proof.
  intros Hc. unfold message.
  set (pad := Z.to_nat (cols self - len text)).
  assert (Hd : (pad / 2 <= pad)%nat) by (apply Nat.Div0.div_le_upper_bound; lia).
  destruct (align =? 1).
  { exists 0%nat, pad. rewrite (format_align_ok AlignLeft) by assumption.
    split; [apply send_text|]. cbn [orb]. unfold len in *. lia. }
  destruct (align =? 2).
  { exists (pad / 2)%nat, (pad - pad / 2)%nat.
    rewrite (format_align_ok AlignCenter) by assumption.
    split; [apply send_text|]. cbn [orb]. unfold len in *. lia. }
  destruct (align =? 3).
  { exists pad, 0%nat. rewrite (format_align_ok AlignRight) by assumption.
    split; [rewrite app_nil_r; apply send_text|]. cbn [orb]. unfold len in *. lia. }
  exists 0%nat, 0%nat. split.
  - rewrite app_nil_r. apply send_text.
  - cbn [orb]. unfold len in *. lia.
Qed.

(** X4: on a display with a column count of at least 0, and for a text
    of characters in 0..255, [message(text, align)] never raises and
    the controller receives, all in its data register, the characters
    of [text] in order with nothing but spaces before and after them:
    [max(cols, len(text))] characters in all when [align] is 1, 2 or
    3, and just the [len(text)] characters of [text] otherwise. *)
Theorem message_received (s : lines) (self : CharLCD) (text : str) (align : Z) :
  0 <= cols self ->
  Forall (fun c => 0 <= c < 256) text ->
  outcome (message self text align) = Ok tt
  /\ exists l r : nat,
      received s (trace (message self text align)) =
      map (fun c => (true, c)) (repeat space l ++ text ++ repeat space r)
      /\ Z.of_nat (length (received s (trace (message self text align)))) =
         if (align =? 1) || (align =? 2) || (align =? 3)
         then Z.max (cols self) (len text)
         else len text.
Proof.
  intros Hc Ht.
  destruct (message_padded self text align Hc) as (l & r & Hm & Hlen).
  rewrite Hm. split; [reflexivity|]. exists l, r.
  unfold trace; cbn [fst]. rewrite received_chars.
  split.
  - apply map_ext_in. intros c Hin. f_equal. apply Z.mod_small.
    apply in_app_or in Hin. destruct Hin as [Hin | Hin].
    + apply repeat_spec in Hin. subst c. unfold space. lia.
    + apply in_app_or in Hin. destruct Hin as [Hin | Hin].
      * rewrite Forall_forall in Ht. now apply Ht.
      * apply repeat_spec in Hin. subst c. unfold space. lia.
  - rewrite length_map, !length_app, !repeat_length.
    rewrite <- Hlen. lia.
Qed.

Lemma message_received_witness :
  0 <= cols lcd16x2
  /\ Forall (fun c => 0 <= c < 256) (str_of "The")
  /\ outcome (message lcd16x2 (str_of "The") 3) = Ok tt
  /\ Z.of_nat (length (received idle
                         (trace (message lcd16x2 (str_of "The") 3)))) = 16.
Proof.
  assert (Hc : 0 <= cols lcd16x2) by (simpl; lia).
  assert (Ht : Forall (fun c => 0 <= c < 256) (str_of "The"))
    by (repeat constructor; simpl; lia).
  destruct (message_received idle lcd16x2 (str_of "The") 3 Hc Ht)
    as (Ho & l & r & _ & Hlen).
  exact (conj Hc (conj Ht (conj Ho Hlen))).
Defined.

(** X5: without justification, text output composes.  For [align]
    other than 1, 2 and 3, [message(a + b, align)] makes exactly the
    calls of [message(a, align)] followed by [message(b, align)]. *)
Theorem message_concat (self : CharLCD) (a b : str) (align : Z) :
  align <> 1 -> align <> 2 -> align <> 3 ->
  message self (a ++ b) align =
  (message self a align ;; message self b align).
Proof.
  intros H1 H2 H3. apply Z.eqb_neq in H1, H2, H3.
  unfold message. rewrite H1, H2, H3.
  change (ret (a ++ b)) with (lift (Ok (a ++ b))).
  change (ret a) with (lift (Ok a)). change (ret b) with (lift (Ok b)).
  rewrite !send_text. unfold bind.
  now rewrite map_app, sends_app.
Qed.

Lemma message_concat_witness :
  message lcd16x2 (str_of "Cursor: " ++ str_of "on") 0 =
  (message lcd16x2 (str_of "Cursor: ") 0 ;; message lcd16x2 (str_of "on") 0).
Proof.
  apply (message_concat lcd16x2 (str_of "Cursor: ") (str_of "on") 0);
    discriminate.
Defined.

(** ** Further properties of cursor addressing *)

Lemma offsets_out_of_range (r : Z) :
  r < -4 \/ 3 < r -> getitem LCD_ROW_OFFSETS r = Raise IndexError.
Proof.
  intros Hr. unfold getitem, len, LCD_ROW_OFFSETS.
  cbn [length Z.of_nat Pos.of_succ_nat Pos.succ].
  destruct (Z.ltb_spec r 0) as [Hneg|Hpos].
  - destruct (Z.ltb_spec (r + 4) 0) as [_|H]; [reflexivity|lia].
  - destruct (Z.ltb_spec r 0) as [H|_]; [lia|].
    destruct (Z.leb_spec 4 r) as [_|H]; [reflexivity|lia].
Qed.

Lemma offsets_in_range (r : Z) :
  -4 <= r <= 3 ->
  exists offset,
    In offset LCD_ROW_OFFSETS /\ getitem LCD_ROW_OFFSETS r = Ok offset.
Proof.
  intros Hr.
  assert (H : r = -4 \/ r = -3 \/ r = -2 \/ r = -1
              \/ r = 0 \/ r = 1 \/ r = 2 \/ r = 3) by lia.
  destruct H as [-> | [-> | [-> | [-> | [-> | [-> | [-> | ->]]]]]]];
    eexists; (split; [|reflexivity]); simpl; tauto.
Qed.

Lemma set_cursor_indexes (self : CharLCD) (col row : Z) :
  set_cursor self col row =
  (offset <- lift (getitem LCD_ROW_OFFSETS
                     (if rows self <? row then rows self - 1 else row)) ;;
   lcd_byte (Z.lor LCD_SETDDRAMADDR (col + offset)) LCD_CMD).
Proof. reflexivity. Qed.

(** X6: on a display configured with 1 to 4 rows, [set_cursor(col, row)]
    with [row >= -4] returns normally after exactly one command,
    LCD_SETDDRAMADDR | (col + offset) with [offset] one of the four row
    offsets, for any [col] at all; the one exception is row 4 on a
    4-row display. *)
Theorem set_cursor_in_range (self : CharLCD) (col row : Z) :
  1 <= rows self <= 4 ->
  -4 <= row ->
  row <> 4 \/ rows self <> 4 ->
  exists offset,
    In offset [0x00; 0x40; 0x14; 0x54]
    /\ set_cursor self col row =
       (sends [cmd (Z.lor LCD_SETDDRAMADDR (col + offset))], Ok tt).
Proof.
  intros Hrows Hrow Hne. rewrite set_cursor_indexes.
  destruct (offsets_in_range (if rows self <? row then rows self - 1 else row))
    as (offset & Hin & Hget).
  { destruct (Z.ltb_spec (rows self) row); lia. }
  exists offset. split; [exact Hin|].
  rewrite Hget, bind_lift_ok. apply lcd_byte_sends.
Qed.

Lemma set_cursor_in_range_witness :
  exists offset,
    In offset [0x00; 0x40; 0x14; 0x54]
    /\ set_cursor lcd20x4 25 (-1) =
       (sends [cmd (Z.lor LCD_SETDDRAMADDR (25 + offset))], Ok tt).
Proof.
  apply (set_cursor_in_range lcd20x4 25 (-1)); simpl; lia.
Defined.

(** X7: [set_cursor] fails only through the row.  It raises IndexError
    exactly when the row it indexes the offset table with ([rows - 1]
    if [row > rows], [row] otherwise) is below -4 or above 3, and then
    nothing has been sent; no other exception is raised and [col] plays
    no part. *)
Theorem set_cursor_failure (self : CharLCD) (col row : Z) :
  (outcome (set_cursor self col row) = Raise IndexError <->
   (rows self < row /\ (rows self < -3 \/ 4 < rows self))
   \/ (row <= rows self /\ (row < -4 \/ 3 < row)))
  /\ (outcome (set_cursor self col row) <> Ok tt ->
      set_cursor self col row = ([], Raise IndexError)).
Proof.
  rewrite set_cursor_indexes.
  set (r := if rows self <? row then rows self - 1 else row).
  assert (Hr : (r < -4 \/ 3 < r) <->
               (rows self < row /\ (rows self < -3 \/ 4 < rows self))
               \/ (row <= rows self /\ (row < -4 \/ 3 < row))).
  { subst r. destruct (Z.ltb_spec (rows self) row); lia. }
  destruct (Z_le_gt_dec (-4) r) as [Hlo|Hlo];
    [destruct (Z_le_gt_dec r 3) as [Hhi|Hhi]|].
  - destruct (offsets_in_range r (conj Hlo Hhi)) as (offset & _ & Hget).
    rewrite Hget, bind_lift_ok, lcd_byte_sends. cbn [outcome snd].
    split.
    + split; [discriminate|]. intros H. apply Hr in H. lia.
    + intros H. now contradiction H.
  - rewrite offsets_out_of_range by lia. cbn.
    split; [|reflexivity]. split; [intros _; apply Hr; lia|reflexivity].
  - rewrite offsets_out_of_range by lia. cbn.
    split; [|reflexivity]. split; [intros _; apply Hr; lia|reflexivity].
Qed.

Lemma set_cursor_failure_witness :
  outcome (set_cursor {| cols := 40; rows := 5; displaycontrol := 4 |} 0 6)
  = Raise IndexError
  /\ set_cursor {| cols := 40; rows := 5; displaycontrol := 4 |} 0 6
     = ([], Raise IndexError).
Proof.
  pose proof (set_cursor_failure
                {| cols := 40; rows := 5; displaycontrol := 4 |} 0 6)
    as [Hiff Hnone].
  assert (Ho : outcome (set_cursor
                          {| cols := 40; rows := 5; displaycontrol := 4 |} 0 6)
               = Raise IndexError).
  { apply Hiff. left. simpl. lia. }
  split; [exact Ho|]. apply Hnone. rewrite Ho. discriminate.
Defined.

(** X8: the two address tables agree.  For a row [n] in 0..3 that is
    not above the row count, [set_cursor(0, n)] makes exactly the calls
    of [set_line(n)]. *)
Theorem set_cursor_column_zero (self : CharLCD) (n : Z) :
  0 <= n <= 3 -> n <= rows self ->
  set_cursor self 0 n = set_line n.
Proof.
  intros Hn Hrows. rewrite set_cursor_indexes.
  destruct (Z.ltb_spec (rows self) n) as [H|_]; [lia|].
  assert (H : n = 0 \/ n = 1 \/ n = 2 \/ n = 3) by lia.
  destruct H as [-> | [-> | [-> | ->]]]; reflexivity.
Qed.

Lemma set_cursor_column_zero_witness :
  set_cursor lcd16x2 0 1 = set_line 1.
Proof.
  apply (set_cursor_column_zero lcd16x2 1); simpl; lia.
Defined.

Lemma lor_high_bit (k x : Z) :
  0 <= k -> 0 <= x < 2 ^ k -> Z.lor (2 ^ k) x = 2 ^ k + x.
Proof.
  intros Hk Hx.
  assert (Hb : Z.testbit x k = false).
  { pose proof (bit_value x k Hk) as Hv.
    rewrite Z.div_small, Z.mod_0_l in Hv by lia.
    now destruct (Z.testbit x k). }
  assert (Hl : Z.land (2 ^ k) x = 0).
  { rewrite Z.land_comm, land_pow2 by assumption. now rewrite Hb. }
  rewrite <- Z.lxor_lor by assumption.
  symmetry. now apply Z.add_nocarry_lxor.
Qed.

(** X9: the address reaches the controller intact.  For a row in 0..3
    that is not above the row count, with [offset] its entry in the
    offset table, and a column with [0 <= col + offset < 128], the
    controller receives the single command byte 0x80 + col + offset:
    bit 7 set and the DDRAM address in the low seven bits. *)
Theorem set_cursor_address (s : lines) (self : CharLCD) (col row offset : Z) :
  0 <= row <= 3 -> row <= rows self ->
  nth_error [0x00; 0x40; 0x14; 0x54] (Z.to_nat row) = Some offset ->
  0 <= col + offset < 128 ->
  received s (trace (set_cursor self col row)) = [(false, 0x80 + (col + offset))].
Proof.
  intros Hrow Hrows Hoff Hcol. rewrite set_cursor_indexes.
  destruct (Z.ltb_spec (rows self) row) as [H|_]; [lia|].
  assert (Hget : getitem LCD_ROW_OFFSETS row = Ok offset).
  { assert (H : row = 0 \/ row = 1 \/ row = 2 \/ row = 3) by lia.
    destruct H as [-> | [-> | [-> | ->]]];
      simpl in Hoff; injection Hoff as <-; reflexivity. }
  rewrite Hget, bind_lift_ok, lcd_byte_sends.
  unfold trace; cbn [fst]. rewrite received_sends. cbn [map fst snd].
  change LCD_SETDDRAMADDR with (2 ^ 7).
  rewrite lor_high_bit by (change (2 ^ 7) with 128; lia).
  change (2 ^ 7) with 128. rewrite Z.mod_small by lia. reflexivity.
Qed.

Lemma set_cursor_address_witness :
  received idle (trace (set_cursor lcd20x4 19 3)) = [(false, 0x80 + (19 + 0x54))].
Proof.
  apply (set_cursor_address idle lcd20x4 19 3 0x54);
    try reflexivity; simpl; lia.
Defined.

(** X10: columns are not checked against the width, so rows alias.
    Where rows 0 and 1 are not above the row count, column [col + 0x40]
    of row 0 is column [col] of row 1; and column [col + 0x14] of row
    [r] is column [col] of row [r + 2], for [r] 0 or 1 on a display
    with at least [r + 2] rows. *)
Theorem set_cursor_rows_alias (self : CharLCD) (col r : Z) :
  (1 <= rows self ->
   set_cursor self (col + 0x40) 0 = set_cursor self col 1)
  /\ (0 <= r <= 1 -> r + 2 <= rows self ->
      set_cursor self (col + 0x14) r = set_cursor self col (r + 2)).
Proof.
  assert (H0 : getitem LCD_ROW_OFFSETS 0 = Ok 0x00) by reflexivity.
  assert (H1 : getitem LCD_ROW_OFFSETS 1 = Ok 0x40) by reflexivity.
  assert (H2 : getitem LCD_ROW_OFFSETS 2 = Ok 0x14) by reflexivity.
  assert (H3 : getitem LCD_ROW_OFFSETS 3 = Ok 0x54) by reflexivity.
  split.
  - intros Hrows. rewrite !set_cursor_indexes.
    destruct (Z.ltb_spec (rows self) 0) as [H|_]; [lia|].
    destruct (Z.ltb_spec (rows self) 1) as [H|_]; [lia|].
    rewrite H0, H1, !bind_lift_ok. do 2 f_equal. lia.
  - intros Hr Hrows. rewrite !set_cursor_indexes.
    destruct (Z.ltb_spec (rows self) r) as [H|_]; [lia|].
    destruct (Z.ltb_spec (rows self) (r + 2)) as [H|_]; [lia|].
    assert (H : r = 0 \/ r = 1) by lia.
    destruct H as [-> | ->]; change (0 + 2) with 2; change (1 + 2) with 3.
    + rewrite H0, H2, !bind_lift_ok. do 2 f_equal. lia.
    + rewrite H1, H3, !bind_lift_ok. do 2 f_equal. lia.
Qed.

Lemma set_cursor_rows_alias_witness :
  set_cursor lcd16x2 (3 + 0x40) 0 = set_cursor lcd16x2 3 1
  /\ set_cursor lcd20x4 (0 + 0x14) 1 = set_cursor lcd20x4 0 (1 + 2).
Proof.
  split.
  - apply (proj1 (set_cursor_rows_alias lcd16x2 3 0)). simpl; lia.
  - apply (proj2 (set_cursor_rows_alias lcd20x4 0 1)); simpl; lia.
Defined.

(** ** Further properties of custom characters *)

Lemma create_char_calls (location : Z) (pattern : list Z) :
  trace (create_char location pattern) =
  sends (cmd (Z.lor LCD_SETCGRAMADDR (Z.shiftl (Z.land location 0x7) 3))
           :: map chr (firstn 8 pattern)).
Proof.
  destruct (Nat.le_gt_cases 8 (length pattern)) as [H|H].
  - now rewrite create_char_full.
  - rewrite create_char_short by assumption.
    rewrite firstn_all2 by lia. reflexivity.
Qed.

Lemma cgram_command (location : Z) :
  Z.lor LCD_SETCGRAMADDR (Z.shiftl (Z.land location 0x7) 3)
  = 0x40 + 8 * (location mod 8).
Proof.
  change 0x7 with (Z.ones 3). rewrite Z.land_ones by lia.
  rewrite Z.shiftl_mul_pow2 by lia.
  change (2 ^ 3) with 8. change LCD_SETCGRAMADDR with (2 ^ 6).
  pose proof (Z.mod_pos_bound location 8 ltac:(lia)) as Hm.
  rewrite lor_high_bit by (change (2 ^ 6) with 64; lia).
  change (2 ^ 6) with 64. lia.
Qed.

Lemma in_firstn {A} (n : nat) (l : list A) (x : A) :
  In x (firstn n l) -> In x l.
Proof.
  intros H. rewrite <- (firstn_skipn n l). apply in_or_app. now left.
Qed.

Lemma latches_sends_length (calls : list (Z * Z)) (s : lines) :
  length (latches s (sends calls)) = (2 * length calls)%nat.
Proof.
  revert s. induction calls as [|[b m] calls IH]; intros s.
  - reflexivity.
  - rewrite sends_cons, latches_app, latches_lcd_byte, length_app, IH.
    simpl. lia.
Qed.

(** X11: for any slot, the controller receives the CGRAM-set command
    0x40 + 8 * (slot mod 8), which addresses the first row of glyph
    [slot mod 8], then, for a pattern of at least 8 bytes in 0..255,
    its first 8 bytes in the data register. *)
Theorem create_char_received (s : lines) (slot : Z) (pattern : list Z) :
  (8 <= length pattern)%nat ->
  Forall (fun c => 0 <= c < 256) pattern ->
  received s (trace (create_char slot pattern)) =
  (false, 0x40 + 8 * (slot mod 8))
    :: map (fun c => (true, c)) (firstn 8 pattern).
Proof.
  intros Hlen Hp. rewrite create_char_calls, received_sends.
  cbn [map fst snd cmd]. rewrite cgram_command.
  pose proof (Z.mod_pos_bound slot 8 ltac:(lia)) as Hm.
  rewrite (Z.mod_small (0x40 + 8 * (slot mod 8))) by lia.
  f_equal. rewrite map_map. apply map_ext_in. intros c Hin.
  cbn [chr fst snd]. f_equal. apply Z.mod_small.
  rewrite Forall_forall in Hp. apply Hp. eapply in_firstn, Hin.
Qed.

Lemma create_char_received_witness :
  received idle (trace (create_char 11 [1; 1; 5; 29; 25; 3; 6; 28]))
  = (false, 0x40 + 8 * (11 mod 8))
      :: map (fun c => (true, c)) (firstn 8 [1; 1; 5; 29; 25; 3; 6; 28]).
Proof.
  apply (create_char_received idle 11 [1; 1; 5; 29; 25; 3; 6; 28]).
  - simpl; lia.
  - repeat constructor; lia.
Defined.

(** X12: two slots name the same glyph exactly when they are congruent
    modulo 8.  For any pattern, [create_char(a, pattern)] and
    [create_char(b, pattern)] make the same calls with the same outcome
    if and only if [a mod 8 = b mod 8]. *)
Theorem create_char_same_slot (a b : Z) (pattern : list Z) :
  create_char a pattern = create_char b pattern <-> a mod 8 = b mod 8.
Proof.
  split.
  - intros H.
    apply (f_equal (fun r => received idle (trace r))) in H.
    rewrite !create_char_calls in H. unfold cmd in H.
    rewrite !sends_cons, !received_lcd_byte, !cgram_command in H.
    apply (f_equal (fun l => hd 0 (map snd l))) in H. cbn [map snd hd] in H.
    pose proof (Z.mod_pos_bound a 8 ltac:(lia)) as Ha.
    pose proof (Z.mod_pos_bound b 8 ltac:(lia)) as Hb.
    rewrite (Z.mod_small (0x40 + 8 * (a mod 8))),
      (Z.mod_small (0x40 + 8 * (b mod 8))) in H by lia.
    lia.
  - intros H.
    assert (Hc : Z.lor LCD_SETCGRAMADDR (Z.shiftl (Z.land a 0x7) 3)
                 = Z.lor LCD_SETCGRAMADDR (Z.shiftl (Z.land b 0x7) 3))
      by (rewrite !cgram_command; lia).
    destruct (Nat.le_gt_cases 8 (length pattern)) as [Hl|Hl].
    + rewrite !create_char_full by assumption. now rewrite Hc.
    + rewrite !create_char_short by assumption. now rewrite Hc.
Qed.

Lemma create_char_same_slot_witness :
  10 mod 8 = 2 mod 8
  /\ create_char 10 [28; 6; 3; 1; 13; 13; 13; 1]
     = create_char 2 [28; 6; 3; 1; 13; 13; 13; 1].
Proof.
  split; [reflexivity|].
  apply (proj2 (create_char_same_slot 10 2 [28; 6; 3; 1; 13; 13; 13; 1])).
  reflexivity.
Defined.

(** X13: only the first eight bytes of the pattern are used.  For a
    pattern [p] of exactly 8 bytes, [create_char(slot, p + extra)]
    makes the same calls as [create_char(slot, p)]. *)
Theorem create_char_ignores_extra (slot : Z) (p extra : list Z) :
  length p = 8%nat ->
  create_char slot (p ++ extra) = create_char slot p.
Proof.
  intros Hp.
  rewrite !create_char_full by (rewrite ?length_app; lia).
  rewrite firstn_app, Hp, Nat.sub_diag, firstn_O, app_nil_r.
  reflexivity.
Qed.

Lemma create_char_ignores_extra_witness :
  create_char 2 ([16; 20; 20; 23; 19; 24; 12; 7] ++ [255; 255])
  = create_char 2 [16; 20; 20; 23; 19; 24; 12; 7].
Proof.
  apply (create_char_ignores_extra 2 [16; 20; 20; 23; 19; 24; 12; 7]).
  reflexivity.
Defined.

(** X14: [create_char] always stops on a byte boundary.  Whatever the
    slot and the pattern, also when a short pattern makes it raise
    IndexError, the controller has latched an even number of nibbles,
    two for the command and two for each of the first 8 pattern bytes
    there are, and enable is left low. *)
Theorem create_char_byte_boundary (s : lines) (slot : Z) (pattern : list Z) :
  length (latches s (trace (create_char slot pattern)))
  = (2 * (1 + Nat.min 8 (length pattern)))%nat
  /\ l_en (run s (trace (create_char slot pattern))) = false.
Proof.
  rewrite create_char_calls. split.
  - rewrite latches_sends_length. cbn [length].
    now rewrite length_map, length_firstn.
  - unfold cmd. rewrite sends_cons, run_app.
    apply enable_low_after_sends. now rewrite run_lcd_byte.
Qed.

(** ** Sequences of display-control calls *)

Lemma toggle_call_step (self : CharLCD) (t : toggle) :
  exists dc1,
    toggle_call self t =
    (sends [cmd (Z.lor LCD_DISPLAYCONTROL dc1)],
     Ok (with_displaycontrol self dc1))
    /\ (forall i, Z.testbit dc1 i =
                  if toggle_bit t =? i then toggle_arg t
                  else Z.testbit (displaycontrol self) i)
    /\ (0 <= displaycontrol self <= 7 -> 0 <= dc1 <= 7).
Proof.
  set (dc := displaycontrol self).
  exists (if toggle_arg t then Z.lor dc (2 ^ toggle_bit t)
          else Z.land dc (Z.lnot (2 ^ toggle_bit t))).
  assert (Hk : 0 <= toggle_bit t) by (destruct t; simpl; lia).
  repeat apply conj.
  - destruct t as [on|on|on]; cbn [toggle_call toggle_arg toggle_bit];
      [unfold enable | unfold show_underline | unfold show_blink];
      rewrite lcd_byte_sends; unfold bind, ret; rewrite app_nil_r;
      destruct on; reflexivity.
  - intros i.
    destruct (flag_update dc (toggle_bit t) (toggle_arg t) Hk) as (Hb & _ & Ho).
    destruct (Z.eqb_spec (toggle_bit t) i) as [<-|Hne]; [exact Hb|].
    destruct (Z.lt_ge_cases i 0) as [Hneg|Hpos].
    + now rewrite !Z.testbit_neg_r.
    + apply Ho; [lia | congruence].
  - intros Hdc.
    assert (H : dc = 0 \/ dc = 1 \/ dc = 2 \/ dc = 3
                \/ dc = 4 \/ dc = 5 \/ dc = 6 \/ dc = 7) by lia.
    destruct H as [-> | [-> | [-> | [-> | [-> | [-> | [-> | ->]]]]]]];
      destruct t as [[|]|[|]|[|]]; simpl; lia.
Qed.

Lemma last_cons {A} (a d : A) (l : list A) : last (a :: l) d = last l a.
Proof.
  revert a d. induction l as [|b l IH]; intros a d; [reflexivity|].
  change (last (a :: b :: l) d) with (last (b :: l) d).
  rewrite IH. symmetry. apply IH.
Qed.

(** X15: for the display-control flags the last call wins.  After any
    sequence of [enable], [show_underline] and [show_blink] calls, none
    of which raises, each bit of [displaycontrol] holds the value last
    asked for it (bit 2 by [enable], bit 1 by [show_underline], bit 0 by
    [show_blink]) or its old value if the sequence has no call for it;
    [cols] and [rows] are as before.  In particular the calls for
    different flags commute and repeating a call changes nothing. *)
Theorem toggles_last_wins (ts : list toggle) (self : CharLCD) :
  exists self',
    outcome (toggle_calls self ts) = Ok self'
    /\ cols self' = cols self /\ rows self' = rows self
    /\ forall bit,
        Z.testbit (displaycontrol self') bit =
        last_asked bit ts (Z.testbit (displaycontrol self) bit).
Proof.
  revert self. induction ts as [|t ts IH]; intros self.
  - exists self. repeat split.
  - destruct (toggle_call_step self t) as (dc1 & Hcall & Hbits & _).
    destruct (IH (with_displaycontrol self dc1))
      as (self' & Hout & Hcols & Hrows & Hlast).
    exists self'. cbn [toggle_calls last_asked].
    rewrite Hcall. unfold bind.
    destruct (toggle_calls (with_displaycontrol self dc1) ts) as [t' r'].
    cbn [outcome snd] in *. repeat apply conj; try assumption.
    intros bit. rewrite Hlast. cbn [displaycontrol with_displaycontrol].
    now rewrite Hbits.
Qed.

(** X16: the commands stay well formed and the controller stays in
    step with the object.  If [displaycontrol] is in 0..7, as it is
    after construction, then after any sequence of display-control
    calls it is still in 0..7, the controller has received one command
    byte per call in its command register, each in 0x08..0x0F, and the
    last of them is 0x08 + displaycontrol of the resulting object. *)
Theorem toggles_commands (ts : list toggle) (self : CharLCD) (s : lines) :
  0 <= displaycontrol self <= 7 ->
  exists self',
    outcome (toggle_calls self ts) = Ok self'
    /\ 0 <= displaycontrol self' <= 7
    /\ length (received s (trace (toggle_calls self ts))) = length ts
    /\ Forall (fun c => fst c = false /\ 0x08 <= snd c <= 0x0F)
         (received s (trace (toggle_calls self ts)))
    /\ last (received s (trace (toggle_calls self ts)))
         (false, 0x08 + displaycontrol self)
       = (false, 0x08 + displaycontrol self').
Proof.
  revert self s. induction ts as [|t ts IH]; intros self s Hdc.
  - exists self. repeat apply conj; try reflexivity; try lia. constructor.
  - destruct (toggle_call_step self t) as (dc1 & Hcall & _ & Hrange).
    specialize (Hrange Hdc).
    assert (Hcmd : Z.lor LCD_DISPLAYCONTROL dc1 = 0x08 + dc1).
    { change LCD_DISPLAYCONTROL with (2 ^ 3).
      apply lor_high_bit; [lia | change (2 ^ 3) with 8; lia]. }
    rewrite Hcmd in Hcall.
    destruct (IH (with_displaycontrol self dc1)
                (run s (trace (lcd_byte (0x08 + dc1) LCD_CMD))))
      as (self' & Hout & Hdc' & Hlen & Hall & Hlast);
      [exact Hrange|].
    exists self'. cbn [toggle_calls]. rewrite Hcall. unfold bind.
    destruct (toggle_calls (with_displaycontrol self dc1) ts) as [t' r'].
    cbn [outcome snd trace fst] in *. unfold cmd. rewrite sends_one.
    rewrite received_lcd_byte, Z.mod_small by lia.
    repeat apply conj; try assumption; try lia.
    + cbn [length]. now rewrite Hlen.
    + constructor; [cbn [fst snd]; split; [reflexivity | lia] | exact Hall].
    + rewrite last_cons. exact Hlast.
Qed.

Lemma toggles_commands_witness :
  exists self',
    outcome (toggle_calls lcd16x2 [Blink true; Underline true; Enable false])
    = Ok self'
    /\ 0 <= displaycontrol self' <= 7
    /\ length (received idle
                 (trace (toggle_calls lcd16x2
                           [Blink true; Underline true; Enable false])))
       = 3%nat.
Proof.
  destruct (toggles_commands [Blink true; Underline true; Enable false]
              lcd16x2 idle) as (self' & Ho & Hd & Hl & _).
  - simpl; lia.
  - exists self'. exact (conj Ho (conj Hd Hl)).
Defined.

(** ** Scrolling and the demo *)

(** X17: [move_left()] and [move_right()] never raise and each sends
    exactly one command byte, 0x18 and 0x1C: the HD44780
    cursor-or-display-shift command with the display-shift bit set,
    the two differing only in the direction bit (0x04).  From any state
    of the lines, [n] right shifts followed by [n] left shifts reach the
    controller as [n] bytes 0x1C followed by [n] bytes 0x18. *)
Theorem move_commands (s : lines) (n : nat) :
  move_left = (sends [cmd 0x18], Ok tt)
  /\ move_right = (sends [cmd 0x1C], Ok tt)
  /\ Z.lxor 0x18 0x1C = LCD_MOVERIGHT
  /\ Z.land 0x18 LCD_DISPLAYMOVE = LCD_DISPLAYMOVE
  /\ received s
       (trace (for_each (range n) (fun _ => move_right) ;;
               for_each (range n) (fun _ => move_left)))
     = repeat (false, 0x1C) n ++ repeat (false, 0x18) n.
Proof.
  repeat apply conj; try reflexivity.
  assert (Hloop : forall (b : Z) (l : list Z),
             for_each l (fun _ => lcd_byte b LCD_CMD)
             = (sends (map (fun _ => cmd b) l), Ok tt)).
  { intros b l. induction l as [|x l IH]; [reflexivity|].
    cbn [for_each map]. rewrite IH, (lcd_byte_sends b).
    unfold bind. now rewrite <- sends_app. }
  unfold move_right, move_left.
  change (Z.lor (Z.lor LCD_CURSORSHIFT LCD_DISPLAYMOVE) LCD_MOVERIGHT) with 0x1C.
  change (Z.lor (Z.lor LCD_CURSORSHIFT LCD_DISPLAYMOVE) LCD_MOVELEFT) with 0x18.
  rewrite !Hloop. unfold bind, trace; cbn [fst].
  rewrite <- sends_app, received_sends, map_app, !map_map.
  cbn [cmd fst snd]. unfold range.
  f_equal.
  - rewrite map_map. generalize 0%nat. induction n as [|n IH]; intros k.
    + reflexivity.
    + cbn [seq map repeat]. now rewrite IH.
  - rewrite map_map. generalize 0%nat. induction n as [|n IH]; intros k.
    + reflexivity.
    + cbn [seq map repeat]. now rewrite IH.
Qed.

(** X18: [run()] of demo.py raises nothing: every row, line and slot it
    uses is in range and every pattern has 8 bytes.  When it ends the
    display-control mask is back at 0x04, and the controller has
    received, from idle lines, the initialisation sequence, the texts
    with their justification, the line and cursor commands, 16 shifts
    right then 16 shifts left, and the four glyphs at CGRAM addresses
    0x40, 0x48, 0x50 and 0x58, in this order. *)
Theorem demo_run_stream :
  let cmds := map (fun c : Z => (false, c)) in
  let data := map (fun c : Z => (true, c)) in
  outcome Demo.run = Ok {| cols := 16; rows := 2; displaycontrol := 0x04 |}
  /\ received idle (trace Demo.run) =
     cmds [0x33; 0x32; 0x28; 0x0C; 0x06; 0x01]
     ++ data (str_of "     Hello      ") ++ cmds [0xC0] ++ data (str_of "     World!     ")
     ++ cmds [0x01; 0x0E] ++ data (str_of "Underline")
     ++ cmds [0xC0] ++ data (str_of "Cursor: ")
     ++ cmds [0x01; 0x0F] ++ data (str_of "Blinking")
     ++ cmds [0xC0] ++ data (str_of "Cursor: ")
     ++ cmds [0x0D; 0x0C; 0x01] ++ data (str_of "Scrolling Demo")
     ++ repeat (false, 0x1C) 16 ++ repeat (false, 0x18) 16
     ++ cmds [0x40] ++ data [7; 12; 24; 16; 22; 22; 22; 16]
     ++ cmds [0x48] ++ data [28; 6; 3; 1; 13; 13; 13; 1]
     ++ cmds [0x50] ++ data [16; 20; 20; 23; 19; 24; 12; 7]
     ++ cmds [0x58] ++ data [1; 1; 5; 29; 25; 3; 6; 28]
     ++ cmds [0x01] ++ data (str_of "             The")
     ++ cmds [0x02] ++ data [0; 1]
     ++ cmds [0xC0] ++ data (str_of "             End")
     ++ cmds [0xC0] ++ data [2; 3].
Proof.
  split; vm_compute; reflexivity.
Qed.

(** ** Time spent in transfers *)

(** X19: every byte costs seven sleeps.  A series of [n] [lcd_byte]
    calls, whatever the values and modes, makes exactly [7 * n] sleep
    calls, each of 0.0005 s. *)
Theorem sends_sleeps (calls : list (Z * Z)) :
  sleeps (sends calls) = repeat 0.0005%float (7 * length calls).
Proof.
  induction calls as [|[b m] calls IH].
  - reflexivity.
  - rewrite sends_cons. unfold sleeps in *. rewrite flat_map_app, IH.
    fold (sleeps (trace (lcd_byte b m))). rewrite sleeps_lcd_byte.
    replace (7 * length ((b, m) :: calls))%nat
      with (7 + 7 * length calls)%nat by (cbn [length]; lia).
    now rewrite repeat_app.
Qed.
